(** * PolarManager: lifecycle supervision of external server processes

    A shallow embedding of [core/models.py], [adapters/process_adapter.py]
    and [core/manager.py].

    Python objects become records, one module per class.  The coroutines of
    [ManagedServer] and [PolarManager] become functions in a state and
    exception monad: a raised Python exception keeps every mutation made
    before the [raise], so a computation always returns the state next to
    its result.  Everything the program learns from outside (wall clock,
    outcome of a spawn, exit code of a terminated process, answers of the
    health probes) is read from an oracle [Env] indexed by the number of
    such interactions made so far.  Time stamps are rationals (seconds). *)

From Stdlib Require Import List String Ascii ZArith QArith Bool Arith Lia Lqa.
Import ListNotations.

Local Open Scope string_scope.

(** ** Python helpers *)

(** [kw in line] on [str]: substring test. *)
Fixpoint contains (kw line : string) : bool :=
  if String.prefix kw line then true
  else match line with
       | EmptyString => false
       | String _ rest => contains kw rest
       end.

(** [xs[:n]] for a Python [int] [n]: a negative stop counts from the end. *)
Definition slice_to {A : Type} (n : Z) (xs : list A) : list A :=
  if (0 <=? n)%Z then firstn (Z.to_nat n) xs
  else firstn (Z.to_nat (Z.of_nat (List.length xs) + n)) xs.

(** A [dict] with [str] keys keeps insertion order; assigning to a key that is
    present replaces the value in place. *)
Definition dict (V : Type) : Type := list (string * V).

Fixpoint dict_get {V : Type} (d : dict V) (k : string) : option V :=
  match d with
  | [] => None
  | (k', v) :: d' => if String.eqb k' k then Some v else dict_get d' k
  end.

Fixpoint dict_set {V : Type} (d : dict V) (k : string) (v : V) : dict V :=
  match d with
  | [] => [(k, v)]
  | (k', v') :: d' =>
      if String.eqb k' k then (k', v) :: d' else (k', v') :: dict_set d' k v
  end.

Definition dict_keys {V : Type} (d : dict V) : list string := map fst d.

(** [d.update(other)] *)
Definition dict_update {V : Type} (d other : dict V) : dict V :=
  fold_left (fun acc kv => dict_set acc (fst kv) (snd kv)) other d.

(** ** core/models.py *)

Module ServerStatus.
Inductive t : Type :=
| stopped | starting | running | stopping | crashed | updating | degraded.

Definition value (s : t) : string :=
  match s with
  | stopped => "stopped"
  | starting => "starting"
  | running => "running"
  | stopping => "stopping"
  | crashed => "crashed"
  | updating => "updating"
  | degraded => "degraded"
  end.

Definition eqb (a b : t) : bool :=
  match a, b with
  | stopped, stopped | starting, starting | running, running
  | stopping, stopping | crashed, crashed | updating, updating
  | degraded, degraded => true
  | _, _ => false
  end.
End ServerStatus.

Module HealthState.
Inductive t : Type := ok | warn | fail.

Definition value (h : t) : string :=
  match h with
  | ok => "ok"
  | warn => "warn"
  | fail => "fail"
  end.

Definition eqb (a b : t) : bool :=
  match a, b with
  | ok, ok | warn, warn | fail, fail => true
  | _, _ => false
  end.
End HealthState.

Module ServerConfig.
Record t : Type := mk {
  id : string;
  name : string;
  workdir : string;
  start_cmd : list string;
  stop_cmd : option (list string);
  env : dict string;
  restart_policy : string;
  max_restart_per_minute : Z;
  priority : Z;
  health_port : option Z;
  health_http_url : option string;
  health_timeout_s : Q;
  log_important_keywords : list string
}.

Definition default_keywords : list string :=
  ["ERROR"; "FATAL"; "panic"; "Exception"].

(** The pydantic defaults, for the fields that have one. *)
Definition make (id name workdir : string) (start_cmd : list string) : t :=
  mk id name workdir start_cmd None [] "on-failure" 6 50 None None 2
     default_keywords.

Definition with_policy (p : string) (c : t) : t :=
  mk (id c) (name c) (workdir c) (start_cmd c) (stop_cmd c) (env c) p
     (max_restart_per_minute c) (priority c) (health_port c)
     (health_http_url c) (health_timeout_s c) (log_important_keywords c).
End ServerConfig.

Module AppConfig.
Record t : Type := mk {
  client_id : string;
  max_servers : Z;
  servers : list ServerConfig.t
}.
End AppConfig.

(** Values stored in the [data] dict of an event. *)
Inductive value : Type :=
| VStr (s : string)
| VInt (z : Z).

Module Event.
Record t : Type := mk {
  type : string;
  ts : Q;
  server_id : option string;
  data : dict value
}.
End Event.

(** ** The outside world *)

Inductive exn : Type :=
| KeyError (msg : string)
| ValueError (msg : string)
| RuntimeError (msg : string)
| OSError.

(** What the environment answers at its [n]-th interaction with the program. *)
Record Env : Type := mkEnv {
  clock : nat -> Q;          (* time.time() *)
  spawn_ok : nat -> bool;    (* create_subprocess_exec returns, or raises *)
  term_code : nat -> Z;      (* return code of a process that ends *)
  port_open : nat -> bool;   (* _check_port_open *)
  http_ok : nat -> bool;     (* _check_http *)
  environ : dict string      (* os.environ *)
}.

Record Spawn : Type := mkSpawn {
  sp_cmd : list string;
  sp_cwd : string;
  sp_env : dict string
}.

(** The part of the state shared by every server: the number of interactions
    with the environment so far, the event queue (oldest first) and the
    processes created so far. *)
Record World : Type := mkWorld {
  steps : nat;
  event_q : list Event.t;
  spawned : list Spawn
}.

Definition world0 : World := mkWorld 0 [] [].

(** ** State and exception monad *)

Inductive result (A : Type) : Type :=
| Ok (a : A)
| Exc (e : exn).
Arguments Ok {A} a.
Arguments Exc {A} e.

Definition M (S A : Type) : Type := Env -> S -> result A * S.

Definition ret {S A : Type} (a : A) : M S A := fun _ s => (Ok a, s).

Definition bind {S A B : Type} (m : M S A) (k : A -> M S B) : M S B :=
  fun E s =>
    match m E s with
    | (Ok a, s') => k a E s'
    | (Exc e, s') => (Exc e, s')
    end.

Definition raise {S A : Type} (e : exn) : M S A := fun _ s => (Exc e, s).

Definition gets {S A : Type} (f : S -> A) : M S A := fun _ s => (Ok (f s), s).

Definition modify {S : Type} (f : S -> S) : M S unit :=
  fun _ s => (Ok tt, f s).

Definition ask {S A : Type} (f : Env -> A) : M S A := fun E s => (Ok (f E), s).

(** [try: m except Exception: pass] *)
Definition try_ {S : Type} (m : M S unit) : M S unit :=
  fun E s => match m E s with
             | (Ok _, s') => (Ok tt, s')
             | (Exc _, s') => (Ok tt, s')
             end.

Declare Scope monad_scope.
Delimit Scope monad_scope with monad.
Notation "x <- m ;; k" := (bind m (fun x => k))
  (at level 61, m at next level, right associativity) : monad_scope.
Notation "m ;; k" := (bind m (fun _ => k))
  (at level 61, right associativity) : monad_scope.
Local Open Scope monad_scope.

Definition when {S : Type} (b : bool) (m : M S unit) : M S unit :=
  if b then m else ret tt.

(** One interaction with the environment: read the oracle at the current
    index and move on. *)
Definition interact {A : Type} (f : Env -> nat -> A) : M World A :=
  fun E w => (Ok (f E (steps w)),
              mkWorld (S (steps w)) (event_q w) (spawned w)).

Definition record_spawn (sp : Spawn) : M World unit :=
  modify (fun w => mkWorld (steps w) (event_q w) (spawned w ++ [sp])).

Definition enqueue (ev : Event.t) : M World unit :=
  modify (fun w => mkWorld (steps w) (event_q w ++ [ev]) (spawned w)).

(** Run a computation on a part of the state. *)
Definition zoom {S T A : Type} (get : S -> T) (set : T -> S -> S)
  (m : M T A) : M S A :=
  fun E s => let '(r, t') := m E (get s) in (r, set t' s).

Definition truthy_list {A : Type} (o : option (list A)) : bool :=
  match o with
  | Some (_ :: _) => true
  | _ => false
  end.

Definition truthy_str (o : option string) : bool :=
  match o with
  | Some (String _ _) => true
  | _ => false
  end.

(** [ok and await m] *)
Definition and_await {S : Type} (ok : bool) (m : M S bool) : M S bool :=
  if ok then m else ret false.

(** ** adapters/process_adapter.py *)

Module Process.
(** [asyncio.subprocess.Process]: [returncode] is [None] while it lives. *)
Record t : Type := mk { returncode : option Z }.
End Process.

Module ProcessAdapter.
Record t : Type := mk { proc : option Process.t }.

(** [ProcessAdapter.__init__] *)
Definition init : t := mk None.

Definition is_running (p : t) : bool :=
  match proc p with
  | Some (Process.mk None) => true
  | _ => false
  end.

Definition exit_code (p : t) : option Z :=
  match proc p with
  | None => None
  | Some pr => Process.returncode pr
  end.

(** The operating system reports that the process has ended with return
    code [c]; not an action of the program. *)
Definition exited (c : Z) (p : t) : t :=
  if is_running p then mk (Some (Process.mk (Some c))) else p.

(** State seen by the methods of the adapter: itself and the world. *)
Definition St : Type := (t * World)%type.

Definition in_world {A : Type} (m : M World A) : M St A :=
  zoom snd (fun w s => (fst s, w)) m.

(** [self.proc = await asyncio.create_subprocess_exec(...)]: the environment
    either creates the process, which is then alive, or the call raises. *)
Definition create_subprocess_exec (cmd : list string) (cwd : string)
  (env : dict string) : M St unit :=
  spawned_ok <- in_world (interact spawn_ok) ;;
  if spawned_ok then
    in_world (record_spawn (mkSpawn cmd cwd env)) ;;
    modify (fun s : St => (mk (Some (Process.mk None)), snd s))
  else raise OSError.

(** [ProcessAdapter.start].  The reader task that feeds [on_line] runs later,
    line by line, see [ManagedServer._on_log_line]. *)
Definition start (cmd : list string) (workdir : string) (env : dict string)
  : M St unit :=
  running <- gets (fun s : St => is_running (fst s)) ;;
  if running then raise (RuntimeError "process already running")
  else
    ambient <- ask environ ;;
    let thing := dict_update ambient env in
    create_subprocess_exec cmd workdir thing.

(** [ProcessAdapter.stop]: terminate, wait, kill after the timeout and wait
    again; either way the process has ended when the call returns. *)
Definition stop : M St unit :=
  running <- gets (fun s : St => is_running (fst s)) ;;
  if negb running then ret tt
  else
    code <- in_world (interact term_code) ;;
    modify (fun s : St => (exited code (fst s), snd s)).

End ProcessAdapter.

(** ** core/manager.py: ManagedServer *)

Module ManagedServer.
Record t : Type := mk {
  cfg : ServerConfig.t;
  proc : ProcessAdapter.t;
  status : ServerStatus.t;
  health : HealthState.t;
  _restart_times : list Q
}.

(** [ManagedServer.__init__] *)
Definition init (cfg : ServerConfig.t) : t :=
  mk cfg ProcessAdapter.init ServerStatus.stopped HealthState.ok [].

Definition set_proc (p : ProcessAdapter.t) (s : t) : t :=
  mk (cfg s) p (status s) (health s) (_restart_times s).

Definition set_status (st : ServerStatus.t) (s : t) : t :=
  mk (cfg s) (proc s) st (health s) (_restart_times s).

Definition set_health (h : HealthState.t) (s : t) : t :=
  mk (cfg s) (proc s) (status s) h (_restart_times s).

Definition set_restart_times (ts : list Q) (s : t) : t :=
  mk (cfg s) (proc s) (status s) (health s) ts.

(** State seen by the methods of one server: itself and the world. *)
Record St : Type := mkSt {
  self : t;
  world : World
}.

Definition on_self (f : t -> t) : M St unit :=
  modify (fun s => mkSt (f (self s)) (world s)).

Definition on_world {A : Type} (m : M World A) : M St A :=
  zoom world (fun w s => mkSt (self s) w) m.

Definition on_proc {A : Type} (m : M ProcessAdapter.St A) : M St A :=
  zoom (fun s => (proc (self s), world s))
       (fun pw s => mkSt (set_proc (fst pw) (self s)) (snd pw))
       m.

Definition config {A : Type} (f : ServerConfig.t -> A) : M St A :=
  gets (fun s => f (cfg (self s))).

Definition _now : M St Q := on_world (interact clock).

Definition _emit (type_ : string) (data : dict value) : M St unit :=
  now <- _now ;;
  sid <- config ServerConfig.id ;;
  on_world (enqueue (Event.mk type_ now (Some sid) data)).

Definition _allow_restart : M St bool :=
  now <- _now ;;
  let minute_ago := (now - 60)%Q in
  on_self (fun s =>
    set_restart_times
      (filter (fun t => Qle_bool minute_ago t) (_restart_times s)) s) ;;
  n <- gets (fun s => List.length (_restart_times (self s))) ;;
  limit <- config ServerConfig.max_restart_per_minute ;;
  ret (Z.of_nat n <? limit)%Z.

(** The first keyword that occurs in the line, as found by the [for] loop
    with its [break]. *)
Fixpoint first_keyword (kws : list string) (line : string) : option string :=
  match kws with
  | [] => None
  | kw :: rest => if contains kw line then Some kw else first_keyword rest line
  end.

Definition _on_log_line (line : string) : M St unit :=
  _emit "log_line" [("line", VStr line)] ;;
  kws <- config ServerConfig.log_important_keywords ;;
  match first_keyword kws line with
  | Some kw => _emit "important_log" [("line", VStr line); ("keyword", VStr kw)]
  | None => ret tt
  end.

(** [{"status": self.status.value, "reason": reason}] *)
Definition status_data (st : ServerStatus.t) (reason : string) : dict value :=
  [("status", VStr (ServerStatus.value st)); ("reason", VStr reason)].

Definition emit_status (reason : string) : M St unit :=
  st <- gets (fun s => status (self s)) ;;
  _emit "status" (status_data st reason).

Definition is_running : M St bool :=
  gets (fun s => ProcessAdapter.is_running (proc (self s))).

Definition spawn : M St unit :=
  cmd <- config ServerConfig.start_cmd ;;
  wd <- config ServerConfig.workdir ;;
  env <- config ServerConfig.env ;;
  on_proc (ProcessAdapter.start cmd wd env).

(** [ManagedServer.start].  The lock is free whenever a single coroutine
    runs; the contended case is the subject of the interleaving machine
    further down. *)
Definition start (reason : string) : M St unit :=
  running <- is_running ;;
  if running then ret tt
  else
    on_self (set_status ServerStatus.starting) ;;
    emit_status reason ;;
    spawn ;;
    on_self (set_status ServerStatus.running) ;;
    emit_status reason.

Definition stop (reason : string) : M St unit :=
  running <- is_running ;;
  if negb running then
    on_self (set_status ServerStatus.stopped) ;;
    emit_status reason
  else
    on_self (set_status ServerStatus.stopping) ;;
    emit_status reason ;;
    sc <- config ServerConfig.stop_cmd ;;
    when (truthy_list sc)
         (_emit "info" [("msg", VStr "stop_cmd not implemented yet")]) ;;
    on_proc ProcessAdapter.stop ;;
    on_self (set_status ServerStatus.stopped) ;;
    emit_status reason.

(** [asyncio.sleep(0.2)] changes nothing the program can see; how far the
    clock moves is up to [Env]. *)
Definition restart (reason : string) : M St unit :=
  stop reason ;;
  start reason.

Definition tick_supervisor : M St unit :=
  running <- is_running ;;
  if running then ret tt
  else
    code <- gets (fun s => ProcessAdapter.exit_code (proc (self s))) ;;
    match code with
    | None => ret tt
    | Some c =>
        if (c =? 0)%Z then on_self (set_status ServerStatus.stopped)
        else
          on_self (set_status ServerStatus.crashed) ;;
          _emit "crash" [("exit_code", VInt c)] ;;
          policy <- config ServerConfig.restart_policy ;;
          if String.eqb policy "never" then ret tt
          else
            allowed <- _allow_restart ;;
            if negb allowed then
              _emit "warn" [("msg", VStr "restart rate limited")]
            else
              now <- _now ;;
              on_self (fun s =>
                set_restart_times (_restart_times s ++ [now]) s) ;;
              start "auto_restart"
    end.

Definition _check_port_open (port : Z) (timeout_s : Q) : M St bool :=
  on_world (interact port_open).

Definition _check_http (url : string) (timeout_s : Q) : M St bool :=
  on_world (interact http_ok).

Definition tick_health : M St unit :=
  let ok := true in
  port <- config ServerConfig.health_port ;;
  url <- config ServerConfig.health_http_url ;;
  timeout_s <- config ServerConfig.health_timeout_s ;;
  ok <- match port with
        | Some p => and_await ok (_check_port_open p timeout_s)
        | None => ret ok
        end ;;
  ok <- (if truthy_str url
         then and_await ok (_check_http (match url with
                                         | Some u => u
                                         | None => ""
                                         end) timeout_s)
         else ret ok) ;;
  let new_state := if ok then HealthState.ok else HealthState.fail in
  old <- gets (fun s => health (self s)) ;;
  if negb (HealthState.eqb new_state old) then
    on_self (set_health new_state) ;;
    _emit "health" [("health", VStr (HealthState.value new_state))]
  else ret tt.

End ManagedServer.

(** ** core/manager.py: PolarManager *)

Module PolarManager.
Record t : Type := mk {
  cfg : AppConfig.t;
  servers : dict ManagedServer.t;
  _stop : bool
}.

(** The [ManagedServer] objects created by [__init__], in creation order:
    one per entry of [cfg.servers[: cfg.max_servers]]. *)
Definition instantiated (cfg : AppConfig.t) : list ManagedServer.t :=
  let thing := slice_to (AppConfig.max_servers cfg) (AppConfig.servers cfg) in
  map ManagedServer.init thing.

(** [self.servers[otherThing.id] = s] *)
Definition add_server (d : dict ManagedServer.t) (s : ManagedServer.t)
  : dict ManagedServer.t :=
  dict_set d (ServerConfig.id (ManagedServer.cfg s)) s.

(** [PolarManager.__init__] *)
Definition init (cfg : AppConfig.t) : t :=
  mk cfg (fold_left add_server (instantiated cfg) []) false.

Definition set_servers (d : dict ManagedServer.t) (m : t) : t :=
  mk (cfg m) d (_stop m).

(** [PolarManager.stop] *)
Definition stop (m : t) : t := mk (cfg m) (servers m) true.

(** State seen by the methods of the manager: itself and the world. *)
Record St : Type := mkSt {
  self : t;
  world : World
}.

(** [PolarManager.snapshot] *)
Definition snapshot (m : t)
  : string * dict (string * string * string * Z) :=
  (AppConfig.client_id (cfg m),
   map (fun kv =>
          let s := snd kv in
          (fst kv,
           (ServerConfig.name (ManagedServer.cfg s),
            ServerStatus.value (ManagedServer.status s),
            HealthState.value (ManagedServer.health s),
            ServerConfig.priority (ManagedServer.cfg s))))
       (servers m)).

(** [for sid, s in self.servers.items(): await body(s)]: the servers are
    visited in dictionary order and mutated in place; an exception raised by
    the body ends the loop. *)
Fixpoint for_items (body : M ManagedServer.St unit)
  (items : dict ManagedServer.t) (E : Env) (w : World)
  : result unit * dict ManagedServer.t * World :=
  match items with
  | [] => (Ok tt, [], w)
  | (sid, s) :: rest =>
      match body E (ManagedServer.mkSt s w) with
      | (Ok _, st) =>
          let '(r, rest', w') := for_items body rest E (ManagedServer.world st) in
          (r, (sid, ManagedServer.self st) :: rest', w')
      | (Exc e, st) =>
          (Exc e, (sid, ManagedServer.self st) :: rest, ManagedServer.world st)
      end
  end.

Definition for_servers (body : M ManagedServer.St unit) : M St unit :=
  fun E s =>
    let '(r, items, w) := for_items body (servers (self s)) E (world s) in
    (r, mkSt (set_servers items (self s)) w).

(** [PolarManager.start_all] *)
Definition start_all : M St unit :=
  for_servers (ManagedServer.start "boot").

(** One pass of the [while] loop of [PolarManager.loop]. *)
Definition loop_pass : M St unit :=
  for_servers
    (try_ (ManagedServer.tick_supervisor ;; ManagedServer.tick_health)).

(** Run a method of the server stored under [sid]; [thing] is that object. *)
Definition at_server {A : Type} (sid : string) (thing : ManagedServer.t)
  (m : M ManagedServer.St A) : M St A :=
  fun E s =>
    let '(r, st) := m E (ManagedServer.mkSt thing (world s)) in
    (r, mkSt (set_servers (dict_set (servers (self s)) sid
                                    (ManagedServer.self st)) (self s))
             (ManagedServer.world st)).

(** [PolarManager.do_action].  A [ManagedServer] object is always truthy, so
    [not thing] holds exactly when [get] returned [None]. *)
Definition do_action (server_id action reason : string) : M St unit :=
  thing <- gets (fun s => dict_get (servers (self s)) server_id) ;;
  match thing with
  | None => raise (KeyError "unknown server_id")
  | Some thing =>
      if String.eqb action "start" then
        at_server server_id thing (ManagedServer.start reason)
      else if String.eqb action "stop" then
        at_server server_id thing (ManagedServer.stop reason)
      else if String.eqb action "restart" then
        at_server server_id thing (ManagedServer.restart reason)
      else raise (ValueError "unknown action")
  end.

End PolarManager.

(** ** Interleaving of [stop] with [tick_supervisor]

    The coroutines of one server run on one event loop: a coroutine keeps the
    processor until it reaches an [await] that suspends, and any other
    coroutine may run then.  The machine below cuts [ManagedServer.stop] and
    [ManagedServer.tick_supervisor] (which calls [ManagedServer.start]) at
    each [await] of a queue, a lock, a spawn or a process exit; a label says
    which coroutine runs its next piece, or that the operating system ends
    the process.  Cutting at an [await] that would not suspend only adds
    interleavings. *)

Module Machine.
Import ManagedServer.

(** Where a coroutine stands.  [StopAcquire] and [StartAcquire] wait for the
    lock; the other [Stop..] and [Start..] points hold it; [Return] is the
    end of the coroutine. *)
Inductive pc : Type :=
| StopAcquire | StopEnter | StopCmd | StopProc | StopWait | StopRelease
| TickEnter | TickPolicy
| StartAcquire | StartEnter | StartSpawn | StartSpawned | StartRelease
| Return.

Inductive thread : Type :=
| At (p : pc)
| Raised (e : exn).

Definition acquires (p : pc) : bool :=
  match p with
  | StopAcquire | StartAcquire => true
  | _ => false
  end.

Definition holds_lock (p : pc) : bool :=
  match p with
  | StopEnter | StopCmd | StopProc | StopWait | StopRelease
  | StartEnter | StartSpawn | StartSpawned | StartRelease => true
  | _ => false
  end.

(** [self.status = ServerStatus.stopped; await self._emit("status", ...)] *)
Definition stop_finish (reason : string) : M St pc :=
  on_self (set_status ServerStatus.stopped) ;;
  emit_status reason ;;
  ret StopRelease.

(** [await self.proc.stop()] up to its [await]: nothing to wait for when the
    process has ended, else [terminate()] and wait for the exit. *)
Definition stop_proc (reason : string) : M St pc :=
  running <- is_running ;;
  if negb running then stop_finish reason else ret StopWait.

(** The piece of code that runs from a point to the next cut, and the point
    reached. *)
Definition segment (reason : string) (p : pc) : M St pc :=
  match p with
  | StopAcquire => ret StopEnter
  | StopEnter =>
      running <- is_running ;;
      if negb running then stop_finish reason
      else
        on_self (set_status ServerStatus.stopping) ;;
        emit_status reason ;;
        ret StopCmd
  | StopCmd =>
      sc <- config ServerConfig.stop_cmd ;;
      if truthy_list sc then
        _emit "info" [("msg", VStr "stop_cmd not implemented yet")] ;;
        ret StopProc
      else stop_proc reason
  | StopProc => stop_proc reason
  | StopWait => stop_finish reason
  | StopRelease => ret Return
  | TickEnter =>
      running <- is_running ;;
      if running then ret Return
      else
        code <- gets (fun s => ProcessAdapter.exit_code (proc (self s))) ;;
        match code with
        | None => ret Return
        | Some c =>
            if (c =? 0)%Z then
              on_self (set_status ServerStatus.stopped) ;;
              ret Return
            else
              on_self (set_status ServerStatus.crashed) ;;
              _emit "crash" [("exit_code", VInt c)] ;;
              ret TickPolicy
        end
  | TickPolicy =>
      policy <- config ServerConfig.restart_policy ;;
      if String.eqb policy "never" then ret Return
      else
        allowed <- _allow_restart ;;
        if negb allowed then
          _emit "warn" [("msg", VStr "restart rate limited")] ;;
          ret Return
        else
          now <- _now ;;
          on_self (fun s => set_restart_times (_restart_times s ++ [now]) s) ;;
          ret StartAcquire
  | StartAcquire => ret StartEnter
  | StartEnter =>
      running <- is_running ;;
      if running then ret Return
      else
        on_self (set_status ServerStatus.starting) ;;
        emit_status reason ;;
        ret StartSpawn
  | StartSpawn =>
      running <- is_running ;;
      if running then raise (RuntimeError "process already running")
      else ret StartSpawned
  | StartSpawned =>
      cmd <- config ServerConfig.start_cmd ;;
      wd <- config ServerConfig.workdir ;;
      env <- config ServerConfig.env ;;
      ambient <- ask environ ;;
      on_proc (ProcessAdapter.create_subprocess_exec
                 cmd wd (dict_update ambient env)) ;;
      on_self (set_status ServerStatus.running) ;;
      emit_status reason ;;
      ret StartRelease
  | StartRelease => ret Return
  | Return => ret Return
  end.

(** The operating system ends the process. *)
Definition proc_exit : M St unit :=
  code <- on_world (interact term_code) ;;
  on_self (fun s => set_proc (ProcessAdapter.exited code (proc s)) s).

(** The server and its world, the lock, the two coroutines, and whether the
    tick has created a new process. *)
Record Config : Type := mkConfig {
  st : St;
  lock : bool;
  stopper : thread;
  ticker : thread;
  respawned : bool
}.

(** [stop(reason)] and [tick_supervisor()] both about to run. *)
Definition initial (s : St) : Config :=
  mkConfig s false (At StopAcquire) (At TickEnter) false.

Inductive label : Type :=
| RunStop
| RunTick
| ProcExit.

(** A coroutine at [p] can run unless it waits for a held lock, waits for a
    process that is still alive, or has ended. *)
Definition enabled (p : pc) (s : St) (lock : bool) : bool :=
  match p with
  | Return => false
  | StopAcquire | StartAcquire => negb lock
  | StopWait => negb (ProcessAdapter.is_running (proc (self s)))
  | _ => true
  end.

(** One piece of a coroutine: the thread, state and lock after it.  The lock
    is taken at an acquire point and given back when a coroutine that holds
    it returns or raises. *)
Definition run_piece (E : Env) (reason : string) (p : pc) (s : St)
  (lock : bool) : thread * St * bool :=
  match segment reason p E s with
  | (Ok p', s') =>
      (At p', s',
       if acquires p then true
       else if holds_lock p && negb (holds_lock p') then false
       else lock)
  | (Exc e, s') => (Raised e, s', if holds_lock p then false else lock)
  end.

(** The reason of the [start] called by [tick_supervisor]. *)
Definition tick_reason : string := "auto_restart".

(** One step.  The operating system may end the process whenever it is
    alive, be it the process that was there at the beginning or the one the
    tick has created; a process that ends while it is being created shows
    to the program as one that ends right after. *)
Definition step (E : Env) (reason : string) (l : label) (c : Config)
  : option Config :=
  match l with
  | RunStop =>
      match stopper c with
      | At p =>
          if enabled p (st c) (lock c) then
            let '(t, s', lock') := run_piece E reason p (st c) (lock c) in
            Some (mkConfig s' lock' t (ticker c) (respawned c))
          else None
      | Raised _ => None
      end
  | RunTick =>
      match ticker c with
      | At p =>
          if enabled p (st c) (lock c) then
            let '(t, s', lock') := run_piece E tick_reason p (st c) (lock c) in
            Some (mkConfig s' lock' (stopper c) t
                    (match p, t with
                     | StartSpawned, At _ => true
                     | _, _ => respawned c
                     end))
          else None
      | Raised _ => None
      end
  | ProcExit =>
      if ProcessAdapter.is_running (proc (self (st c)))
      then Some (mkConfig (snd (proc_exit E (st c))) (lock c)
                          (stopper c) (ticker c) (respawned c))
      else None
  end.

(** A schedule is run from left to right; it is refused when one of its
    steps cannot be taken. *)
Fixpoint run (E : Env) (reason : string) (sched : list label) (c : Config)
  : option Config :=
  match sched with
  | [] => Some c
  | l :: rest =>
      match step E reason l c with
      | Some c' => run E reason rest c'
      | None => None
      end
  end.

(** [stop] has asked the process to end and waits for it. *)
Definition asked_to_end (c : Config) : bool :=
  match stopper c with
  | At StopWait => true
  | _ => false
  end.

(** The end of the process in [c] would be the end, on its own, of the
    process the tick has created: nobody has asked it to end. *)
Definition on_its_own (c : Config) : bool :=
  respawned c && negb (asked_to_end c).

(** Along the schedule the process the tick creates, if any, lives until
    [stop] asks it to end: no [ProcExit] of the schedule is taken in a
    configuration where it would end that process on its own. *)
Fixpoint respawn_survives (E : Env) (reason : string) (sched : list label)
  (c : Config) : bool :=
  match sched with
  | [] => true
  | l :: rest =>
      match step E reason l c with
      | Some c' =>
          match l with
          | ProcExit => negb (on_its_own c)
          | _ => true
          end && respawn_survives E reason rest c'
      | None => true
      end
  end.

(** The configurations a schedule goes through, the first one left out. *)
Fixpoint trace (E : Env) (reason : string) (sched : list label) (c : Config)
  : list Config :=
  match sched with
  | [] => []
  | l :: rest =>
      match step E reason l c with
      | Some c' => c' :: trace E reason rest c'
      | None => []
      end
  end.

(** The tick running alone: its next piece, [fuel] times or until it has
    ended. *)
Fixpoint run_tick_alone (fuel : nat) (E : Env) (c : Config) : Config :=
  match fuel with
  | O => c
  | S fuel' =>
      match step E "" RunTick c with
      | Some c' => run_tick_alone fuel' E c'
      | None => c
      end
  end.

(** [stop] running alone: its next piece, or the end of the process when it
    waits for that. *)
Fixpoint run_stop_alone (fuel : nat) (E : Env) (reason : string) (c : Config)
  : Config :=
  match fuel with
  | O => c
  | S fuel' =>
      match step E reason RunStop c with
      | Some c' => run_stop_alone fuel' E reason c'
      | None =>
          match step E reason ProcExit c with
          | Some c' => run_stop_alone fuel' E reason c'
          | None => c
          end
      end
  end.

(** How a finished coroutine ended. *)
Definition outcome (t : thread) : option (result unit) :=
  match t with
  | At Return => Some (Ok tt)
  | Raised e => Some (Exc e)
  | At _ => None
  end.

Definition finished (t : thread) : bool :=
  match t with
  | At Return | Raised _ => true
  | At _ => false
  end.

(** What an observer compares: [is_running()] and [status]. *)
Definition contradicts (s : St) : bool :=
  let running := ProcessAdapter.is_running (proc (self s)) in
  (running && ServerStatus.eqb (status (self s)) ServerStatus.crashed) ||
  (negb running && ServerStatus.eqb (status (self s)) ServerStatus.running).

(** *** A finite view of the machine

    Whether the process runs, the status, the lock, the two program points
    and the respawn flag decide every branch that matters for [contradicts];
    what else a piece of code depends on (exit code, policy, restart window,
    outcome of the spawn) is left open in the view: each piece has a list of
    possible outcomes.  The steps of the view come in two kinds: all of them,
    or, with [live] set, only those in which the process the tick has
    created does not end on its own. *)

Record View : Type := mkView {
  v_running : bool;
  v_status : ServerStatus.t;
  v_lock : bool;
  v_stopper : option pc;      (* [None]: the coroutine has raised *)
  v_ticker : option pc;
  v_respawned : bool
}.

Definition view_thread (t : thread) : option pc :=
  match t with
  | At p => Some p
  | Raised _ => None
  end.

Definition result_thread (r : result pc) : thread :=
  match r with
  | Ok p => At p
  | Exc e => Raised e
  end.

Definition view (c : Config) : View :=
  mkView (ProcessAdapter.is_running (proc (self (st c))))
         (status (self (st c))) (lock c)
         (view_thread (stopper c)) (view_thread (ticker c)) (respawned c).

Definition stop_proc_outcomes (r : bool) (s : ServerStatus.t)
  : list (option pc * bool * ServerStatus.t) :=
  if r then [(Some StopWait, r, s)]
  else [(Some StopRelease, r, ServerStatus.stopped)].

(** The points a piece may reach, with the process state and the status it
    leaves. *)
Definition outcomes (p : pc) (r : bool) (s : ServerStatus.t)
  : list (option pc * bool * ServerStatus.t) :=
  match p with
  | StopAcquire => [(Some StopEnter, r, s)]
  | StopEnter =>
      if r then [(Some StopCmd, r, ServerStatus.stopping)]
      else [(Some StopRelease, r, ServerStatus.stopped)]
  | StopCmd => (Some StopProc, r, s) :: stop_proc_outcomes r s
  | StopProc => stop_proc_outcomes r s
  | StopWait => [(Some StopRelease, r, ServerStatus.stopped)]
  | StopRelease => [(Some Return, r, s)]
  | TickEnter =>
      if r then [(Some Return, r, s)]
      else [(Some Return, r, s);
            (Some Return, r, ServerStatus.stopped);
            (Some TickPolicy, r, ServerStatus.crashed)]
  | TickPolicy => [(Some Return, r, s); (Some StartAcquire, r, s)]
  | StartAcquire => [(Some StartEnter, r, s)]
  | StartEnter =>
      if r then [(Some Return, r, s)]
      else [(Some StartSpawn, r, ServerStatus.starting)]
  | StartSpawn => if r then [(None, r, s)] else [(Some StartSpawned, r, s)]
  | StartSpawned => [(Some StartRelease, true, ServerStatus.running);
                     (None, r, s)]
  | StartRelease => [(Some Return, r, s)]
  | Return => [(Some Return, r, s)]
  end.

Definition view_enabled (p : pc) (r lock : bool) : bool :=
  match p with
  | Return => false
  | StopAcquire | StartAcquire => negb lock
  | StopWait => negb r
  | _ => true
  end.

Definition view_lock (p : pc) (t : option pc) (lock : bool) : bool :=
  match t with
  | Some p' =>
      if acquires p then true
      else if holds_lock p && negb (holds_lock p') then false
      else lock
  | None => if holds_lock p then false else lock
  end.

Definition view_step (live : bool) (l : label) (v : View) : list View :=
  match l with
  | RunStop =>
      match v_stopper v with
      | Some p =>
          if view_enabled p (v_running v) (v_lock v) then
            map (fun o : option pc * bool * ServerStatus.t =>
                   let '(t, r, s) := o in
                   mkView r s (view_lock p t (v_lock v)) t (v_ticker v)
                          (v_respawned v))
                (outcomes p (v_running v) (v_status v))
          else []
      | None => []
      end
  | RunTick =>
      match v_ticker v with
      | Some p =>
          if view_enabled p (v_running v) (v_lock v) then
            map (fun o : option pc * bool * ServerStatus.t =>
                   let '(t, r, s) := o in
                   mkView r s (view_lock p t (v_lock v)) (v_stopper v) t
                          (match p, t with
                           | StartSpawned, Some _ => true
                           | _, _ => v_respawned v
                           end))
                (outcomes p (v_running v) (v_status v))
          else []
      | None => []
      end
  | ProcExit =>
      if v_running v &&
         (negb live ||
          negb (v_respawned v &&
                negb match v_stopper v with
                     | Some StopWait => true
                     | _ => false
                     end))
      then [mkView false (v_status v) (v_lock v) (v_stopper v) (v_ticker v)
                   (v_respawned v)]
      else []
  end.

Definition view_next (live : bool) (v : View) : list View :=
  (view_step live RunStop v ++ view_step live RunTick v ++
   view_step live ProcExit v)%list.

Definition pc_eqb (a b : pc) : bool :=
  match a, b with
  | StopAcquire, StopAcquire | StopEnter, StopEnter | StopCmd, StopCmd
  | StopProc, StopProc | StopWait, StopWait | StopRelease, StopRelease
  | TickEnter, TickEnter | TickPolicy, TickPolicy
  | StartAcquire, StartAcquire | StartEnter, StartEnter
  | StartSpawn, StartSpawn | StartSpawned, StartSpawned
  | StartRelease, StartRelease | Return, Return => true
  | _, _ => false
  end.

Definition opc_eqb (a b : option pc) : bool :=
  match a, b with
  | Some x, Some y => pc_eqb x y
  | None, None => true
  | _, _ => false
  end.

Definition view_eqb (a b : View) : bool :=
  Bool.eqb (v_running a) (v_running b) &&
  ServerStatus.eqb (v_status a) (v_status b) &&
  Bool.eqb (v_lock a) (v_lock b) &&
  opc_eqb (v_stopper a) (v_stopper b) &&
  opc_eqb (v_ticker a) (v_ticker b) &&
  Bool.eqb (v_respawned a) (v_respawned b).

Definition seen (v : View) (vs : list View) : bool := existsb (view_eqb v) vs.

Fixpoint add_new (vs acc : list View) : list View :=
  match vs with
  | [] => acc
  | v :: rest => if seen v acc then add_new rest acc else add_new rest (v :: acc)
  end.

(** Breadth-first closure of a set of views under [view_next]. *)
Fixpoint explore (live : bool) (fuel : nat) (known : list View) : list View :=
  match fuel with
  | O => known
  | S fuel' =>
      explore live fuel' (add_new (flat_map (view_next live) known) known)
  end.

Definition all_status : list ServerStatus.t :=
  [ServerStatus.stopped; ServerStatus.starting; ServerStatus.running;
   ServerStatus.stopping; ServerStatus.crashed; ServerStatus.updating;
   ServerStatus.degraded].

(** The views of [initial s], for every [s]. *)
Definition initial_views : list View :=
  flat_map (fun r => map (fun s => mkView r s false (Some StopAcquire)
                                          (Some TickEnter) false)
                         all_status)
           [true; false].

(** The views met from [initial_views] by any steps. *)
Definition reachable_any : list View := explore false 24 initial_views.

(** The views met from [initial_views] by the steps in which the respawned
    process does not end on its own. *)
Definition reachable_live : list View := explore true 24 initial_views.

Definition reachable (live : bool) : list View :=
  if live then reachable_live else reachable_any.

Definition view_finished (t : option pc) : bool :=
  match t with
  | Some Return | None => true
  | Some _ => false
  end.

Definition view_contradicts (v : View) : bool :=
  (v_running v && ServerStatus.eqb (v_status v) ServerStatus.crashed) ||
  (negb (v_running v) && ServerStatus.eqb (v_status v) ServerStatus.running).

End Machine.

(** ** Vocabulary of the statements *)

Definition live : ProcessAdapter.t := ProcessAdapter.mk (Some (Process.mk None)).

(** The event a server emits at environment index [n]. *)
Definition event_at (E : Env) (n : nat) (s : ManagedServer.t)
  (type_ : string) (data : dict value) : Event.t :=
  Event.mk type_ (clock E n) (Some (ServerConfig.id (ManagedServer.cfg s))) data.

Definition spawn_of (E : Env) (s : ManagedServer.t) : Spawn :=
  mkSpawn (ServerConfig.start_cmd (ManagedServer.cfg s)) (ServerConfig.workdir (ManagedServer.cfg s))
          (dict_update (environ E) (ServerConfig.env (ManagedServer.cfg s))).


(** Number of events of a given type in a list of events. *)
Definition count_type (type_ : string) (evs : list Event.t) : nat :=
  List.length (filter (fun e => String.eqb (Event.type e) type_) evs).

(** The [important_log] event for a line, if a keyword occurs in it. *)
Definition important_events (E : Env) (n : nat) (s : ManagedServer.t)
  (line : string) : list Event.t :=
  match ManagedServer.first_keyword
          (ServerConfig.log_important_keywords (ManagedServer.cfg s)) line with
  | Some kw =>
      [event_at E n s "important_log"
                [("line", VStr line); ("keyword", VStr kw)]]
  | None => []
  end.

Definition health_of (passed : bool) : HealthState.t :=
  if passed then HealthState.ok else HealthState.fail.

Definition port_configured (s : ManagedServer.t) : bool :=
  match ServerConfig.health_port (ManagedServer.cfg s) with
  | Some _ => true
  | None => false
  end.

Definition http_configured (s : ManagedServer.t) : bool :=
  truthy_str (ServerConfig.health_http_url (ManagedServer.cfg s)).

(** The conjunction of the configured probes as the specification words it:
    a probe that is not configured counts as passed.  The port probe, when
    configured, is the interaction at the current index and the HTTP probe
    the one after it. *)
Definition probes_and (E : Env) (s : ManagedServer.St) : bool :=
  let n := steps (ManagedServer.world s) in
  let me := ManagedServer.self s in
  (if port_configured me then port_open E n else true) &&
  (if http_configured me
   then http_ok E (if port_configured me then S n else n)
   else true).

(** Number of probes [tick_health] really makes: the HTTP probe is skipped
    once the port probe has failed. *)
Definition probes_made (E : Env) (s : ManagedServer.St) : nat :=
  let n := steps (ManagedServer.world s) in
  let me := ManagedServer.self s in
  (if port_configured me then 1 else 0) +
  (if http_configured me
   then (if port_configured me
         then (if port_open E n then 1 else 0)
         else 1)
   else 0).

(** The server after [k] successive health evaluations. *)
Fixpoint health_evals (k : nat) (E : Env) (s : ManagedServer.St)
  : ManagedServer.St :=
  match k with
  | O => s
  | S k' => snd (ManagedServer.tick_health E (health_evals k' E s))
  end.

Definition health_events (E : Env) (s : ManagedServer.St) : list Event.t :=
  let new_state := health_of (probes_and E s) in
  if HealthState.eqb new_state (ManagedServer.health (ManagedServer.self s))
  then []
  else [event_at E (steps (ManagedServer.world s) + probes_made E s)
                 (ManagedServer.self s) "health"
                 [("health", VStr (HealthState.value new_state))]].

(** The restart time stamps [_allow_restart] keeps when the clock reads
    [now]. *)
Definition kept_restarts (now : Q) (times : list Q) : list Q :=
  filter (fun t => Qle_bool (now - 60) t) times.

Definition set_cfg (c : ServerConfig.t) (s : ManagedServer.t)
  : ManagedServer.t :=
  ManagedServer.mk c (ManagedServer.proc s) (ManagedServer.status s)
                   (ManagedServer.health s) (ManagedServer._restart_times s).

(** The same server and world under another restart policy. *)
Definition policy_st (p : string) (s : ManagedServer.St) : ManagedServer.St :=
  ManagedServer.mkSt
    (set_cfg (ServerConfig.with_policy p
                (ManagedServer.cfg (ManagedServer.self s)))
             (ManagedServer.self s))
    (ManagedServer.world s).

(** The attempt to start a server for the given reason, as it shows in the
    event queue: the [status] event that announces [starting]. *)
Definition is_start_attempt (reason : string) (e : Event.t) : bool :=
  String.eqb (Event.type e) "status" &&
  match dict_get (Event.data e) "status", dict_get (Event.data e) "reason" with
  | Some (VStr st), Some (VStr r) =>
      String.eqb st "starting" && String.eqb r reason
  | _, _ => false
  end.

Definition count_start_attempts (reason : string) (evs : list Event.t) : nat :=
  List.length (filter (is_start_attempt reason) evs).

(** The entries of the configured list that [__init__] keeps. *)
Definition retained (cfg : AppConfig.t) : list ServerConfig.t :=
  slice_to (AppConfig.max_servers cfg) (AppConfig.servers cfg).

(** ** Sample configurations *)

Definition cfg_a : ServerConfig.t :=
  ServerConfig.make "a" "alpha" "/srv/a" ["run-a"].

Definition cfg_b : ServerConfig.t :=
  ServerConfig.make "b" "beta" "/srv/b" ["run-b"].

(** Two servers and a negative bound. *)
Definition app_negative : AppConfig.t :=
  AppConfig.mk "client-1" (-1) [cfg_a; cfg_b].

Definition app_two : AppConfig.t :=
  AppConfig.mk "client-1" 25 [cfg_a; cfg_b].

(** ** Sample environments *)

(** The clock reads the interaction index, in seconds. *)
Definition clock_index (n : nat) : Q := inject_Z (Z.of_nat n).

(** Every spawn succeeds, terminated processes return -15, probes pass. *)
Definition env_fine : Env :=
  mkEnv clock_index (fun _ => true) (fun _ => (-15)%Z)
        (fun _ => true) (fun _ => true) [].

(** As [env_fine], but the spawn asked for at interaction 1 fails. *)
Definition env_first_spawn_fails : Env :=
  mkEnv clock_index (fun n => negb (Nat.eqb n 1)) (fun _ => (-15)%Z)
        (fun _ => true) (fun _ => true) [].

Definition manager_two : PolarManager.St :=
  PolarManager.mkSt (PolarManager.init app_two) world0.

Definition statuses (s : PolarManager.St) : dict ServerStatus.t :=
  map (fun kv => (fst kv, ManagedServer.status (snd kv)))
      (PolarManager.servers (PolarManager.self s)).

(** ** Scenarios *)

(** The process of the server ends with return code [code]: a step of the
    operating system, between two steps of the program. *)
Definition crash (code : Z) (s : ManagedServer.St) : ManagedServer.St :=
  ManagedServer.mkSt
    (ManagedServer.set_proc
       (ProcessAdapter.exited code (ManagedServer.proc (ManagedServer.self s)))
       (ManagedServer.self s))
    (ManagedServer.world s).

(** A freshly built server after a [start] for the given reason. *)
Definition started (E : Env) (c : ServerConfig.t) (w : World)
  (reason : string) : ManagedServer.St :=
  snd (ManagedServer.start reason E
         (ManagedServer.mkSt (ManagedServer.init c) w)).

Definition status_of (c : Machine.Config) : ServerStatus.t :=
  ManagedServer.status (ManagedServer.self (Machine.st c)).

(** Only the tick runs; no [stop] is in flight. *)
Definition tick_only (s : ManagedServer.St) : Machine.Config :=
  Machine.mkConfig s false (Machine.At Machine.Return)
                   (Machine.At Machine.TickEnter) false.

(** Server [a] started from the empty world, every spawn succeeding. *)
Definition started_a : ManagedServer.St := started env_fine cfg_a world0 "boot".

(** [stop] takes the lock and asks the process to end; the process ends; the
    tick sees the exit and waits for the lock; [stop] finishes; the tick
    starts the server again. *)
Definition race_schedule : list Machine.label :=
  [Machine.RunStop; Machine.RunStop; Machine.RunStop; Machine.ProcExit;
   Machine.RunTick; Machine.RunTick;
   Machine.RunStop; Machine.RunStop;
   Machine.RunTick; Machine.RunTick; Machine.RunTick; Machine.RunTick;
   Machine.RunTick].

(** One crash detection: the process ends with [code] (if it was alive) and
    the supervision loop runs [tick_supervisor], catching what it raises. *)
Definition detect (E : Env) (code : Z) (s : ManagedServer.St)
  : ManagedServer.St :=
  snd (ManagedServer.tick_supervisor E (crash code s)).

(** The process is not running and left a non-zero return code. *)
Definition has_crashed (s : ManagedServer.St) : Prop :=
  ProcessAdapter.is_running (ManagedServer.proc (ManagedServer.self s)) = false /\
  exists c : Z,
    ProcessAdapter.exit_code (ManagedServer.proc (ManagedServer.self s))
    = Some c /\ c <> 0%Z.

(** Every reading of the clock from interaction [n0] up to, not including,
    [n1] lies within 60 seconds after every earlier one of them. *)
Definition one_window (E : Env) (n0 n1 : nat) : Prop :=
  forall i j : nat,
    (n0 <= i)%nat -> (i <= j)%nat -> (j < n1)%nat ->
    (clock E j - 60 <= clock E i)%Q.

(** Server [a] with at most 3 restarts a minute. *)
Definition cfg_limited : ServerConfig.t :=
  ServerConfig.mk "a" "alpha" "/srv/a" ["run-a"] None [] "on-failure" 3 50
                  None None 2 ServerConfig.default_keywords.

Definition cfg_always : ServerConfig.t := ServerConfig.with_policy "always" cfg_a.

(** The state of the scenario after [i] detections that each restarted the
    server: [i] restart times, all read from the clock since interaction
    [n0], and since then [i] crash events, [i] start attempts and no
    warning in the queue, which held [q0] before. *)
Definition counted (E : Env) (n0 : nat) (q0 : list Event.t)
  (c0 : ServerConfig.t) (i : nat) (s : ManagedServer.St) : Prop :=
  ManagedServer.cfg (ManagedServer.self s) = c0 /\
  (ProcessAdapter.is_running (ManagedServer.proc (ManagedServer.self s)) = true
   \/ has_crashed s) /\
  List.length (ManagedServer._restart_times (ManagedServer.self s)) = i /\
  Forall (fun t => exists j : nat,
              (n0 <= j < steps (ManagedServer.world s))%nat /\ t = clock E j)
         (ManagedServer._restart_times (ManagedServer.self s)) /\
  (n0 <= steps (ManagedServer.world s) <= n0 + 6 * i)%nat /\
  exists evs : list Event.t,
    event_q (ManagedServer.world s) = (q0 ++ evs)%list /\
    count_start_attempts "auto_restart" evs = i /\
    count_type "warn" evs = 0%nat /\
    count_type "crash" evs = i.

(** Server [a] with the limit of 3, started from the empty world. *)
Definition started_limited : ManagedServer.St :=
  started env_fine cfg_limited world0 "boot".

(** A crashed server whose three restarts date from seconds 0, 1 and 2, at
    interaction 100 of [env_fine], that is at second 100. *)
Definition crashed_later : ManagedServer.St :=
  ManagedServer.mkSt
    (ManagedServer.mk cfg_limited
       (ProcessAdapter.mk (Some (Process.mk (Some 1%Z))))
       ServerStatus.crashed HealthState.ok [0%Q; 1%Q; 2%Q])
    (mkWorld 100 [] []).

(** Server [a] crashed with return code 1 after its start. *)
Definition crashed_a : ManagedServer.St := crash 1 started_a.

(** [stop] finds the crashed server and returns; the tick restarts it; the
    new process ends on its own before the tick gives the lock back. *)
Definition respawn_exit_schedule : list Machine.label :=
  [Machine.RunStop; Machine.RunStop; Machine.RunStop;
   Machine.RunTick; Machine.RunTick; Machine.RunTick; Machine.RunTick;
   Machine.RunTick; Machine.RunTick;
   Machine.ProcExit;
   Machine.RunTick].

(** ** Further vocabulary *)

(** The server under [n] successive calls of [tick_supervisor], as the
    supervision loop makes them. *)
Fixpoint ticks (n : nat) (E : Env) (s : ManagedServer.St) : ManagedServer.St :=
  match n with
  | O => s
  | S n' => snd (ManagedServer.tick_supervisor E (ticks n' E s))
  end.

(** What a method leaves alone: the configuration of the server; and what it
    may only do to the world: go on in the environment, append events that
    carry the id of the server, and append spawned processes. *)
Definition extends (s s' : ManagedServer.St) : Prop :=
  ManagedServer.cfg (ManagedServer.self s')
    = ManagedServer.cfg (ManagedServer.self s) /\
  (steps (ManagedServer.world s) <= steps (ManagedServer.world s'))%nat /\
  (exists evs : list Event.t,
      event_q (ManagedServer.world s')
        = (event_q (ManagedServer.world s) ++ evs)%list /\
      Forall (fun e => Event.server_id e =
                       Some (ServerConfig.id
                               (ManagedServer.cfg (ManagedServer.self s))))
             evs) /\
  (exists sps : list Spawn,
      spawned (ManagedServer.world s')
        = (spawned (ManagedServer.world s) ++ sps)%list).

(** A method is orderly when every call of it, whatever it returns or
    raises, [extends] the state. *)
Definition orderly {A : Type} (m : M ManagedServer.St A) : Prop :=
  forall (E : Env) (s : ManagedServer.St), extends s (snd (m E s)).

(** Whether a coroutine holds the lock of the server. *)
Definition thread_holds (t : Machine.thread) : bool :=
  match t with
  | Machine.At p => Machine.holds_lock p
  | Machine.Raised _ => false
  end.

Definition view_holds (t : option Machine.pc) : bool :=
  match t with
  | Some p => Machine.holds_lock p
  | None => false
  end.

(** In a view, a coroutine can run its next piece or the process can end. *)
Definition view_can_move (v : Machine.View) : bool :=
  match Machine.v_stopper v with
  | Some p => Machine.view_enabled p (Machine.v_running v) (Machine.v_lock v)
  | None => false
  end ||
  match Machine.v_ticker v with
  | Some p => Machine.view_enabled p (Machine.v_running v) (Machine.v_lock v)
  | None => false
  end ||
  Machine.v_running v.

(** An upper bound on the steps a view still has before it: the pieces the
    two coroutines have left, and the process ends still possible (of the
    process that is alive, and of the one the tick may yet create). *)
Definition pieces_left (t : option Machine.pc) : nat :=
  match t with
  | Some Machine.StopAcquire => 6
  | Some Machine.StopEnter => 5
  | Some Machine.StopCmd => 4
  | Some Machine.StopProc => 3
  | Some Machine.StopWait => 2
  | Some Machine.StopRelease => 1
  | Some Machine.TickEnter => 7
  | Some Machine.TickPolicy => 6
  | Some Machine.StartAcquire => 5
  | Some Machine.StartEnter => 4
  | Some Machine.StartSpawn => 3
  | Some Machine.StartSpawned => 2
  | Some Machine.StartRelease => 1
  | Some Machine.Return => 0
  | None => 0
  end.

Definition may_spawn (t : option Machine.pc) : bool :=
  match t with
  | Some Machine.TickEnter | Some Machine.TickPolicy
  | Some Machine.StartAcquire | Some Machine.StartEnter
  | Some Machine.StartSpawn | Some Machine.StartSpawned => true
  | _ => false
  end.

Definition steps_left (v : Machine.View) : nat :=
  pieces_left (Machine.v_stopper v) + pieces_left (Machine.v_ticker v) +
  (if Machine.v_running v then 1 else 0) +
  (if may_spawn (Machine.v_ticker v) then 1 else 0).

(** A second entry with the id of [cfg_a]. *)
Definition cfg_a_again : ServerConfig.t :=
  ServerConfig.make "a" "alpha-2" "/srv/a2" ["run-a2"].

Definition app_duplicate : AppConfig.t :=
  AppConfig.mk "client-1" 25 [cfg_a; cfg_b; cfg_a_again].

(** ** app.py: the HTTP handlers *)

Module App.

Record ActionReq : Type := mkActionReq {
  server_id : string;
  reason : option string
}.

Record PluginEventReq : Type := mkPluginEventReq {
  pe_server_id : option string;
  pe_type : string;
  pe_data : dict value
}.

(** What a handler gives back to the framework: the body [{"ok": True}], an
    [HTTPException] with its status code and detail, or another exception,
    which the handler does not catch. *)
Inductive response : Type :=
| Accepted
| HTTPException (code : Z) (detail : string)
| Uncaught (e : exn).

(** [req.reason or "api"] *)
Definition reason_or_api (r : option string) : string :=
  match r with
  | Some (String c rest) => String c rest
  | _ => "api"
  end.

(** The handlers of [/v1/start], [/v1/stop] and [/v1/restart], which differ
    in the action they name. *)
Definition action (name : string) (req : ActionReq) (E : Env)
  (s : PolarManager.St) : response * PolarManager.St :=
  match PolarManager.do_action (server_id req) name
                               (reason_or_api (reason req)) E s with
  | (Ok _, s') => (Accepted, s')
  | (Exc (KeyError _), s') => (HTTPException 404 "unknown server_id", s')
  | (Exc e, s') => (Uncaught e, s')
  end.

Definition start : ActionReq -> Env -> PolarManager.St
                   -> response * PolarManager.St := action "start".
Definition stop : ActionReq -> Env -> PolarManager.St
                  -> response * PolarManager.St := action "stop".
Definition restart : ActionReq -> Env -> PolarManager.St
                     -> response * PolarManager.St := action "restart".

(** [not x_polar_secret or x_polar_secret != shared_secret] *)
Definition bad_secret (x_polar_secret : option string) (shared_secret : string)
  : bool :=
  negb (truthy_str x_polar_secret) ||
  match x_polar_secret with
  | Some x => negb (String.eqb x shared_secret)
  | None => true
  end.

(** The handler of [/v1/plugin/event].  The time stamp is the clock read
    through the first server of the manager, or 0.0 when it has none. *)
Definition plugin_event (shared_secret : option string)
  (req : PluginEventReq) (x_polar_secret : option string) (E : Env)
  (s : PolarManager.St) : response * PolarManager.St :=
  if truthy_str shared_secret &&
     bad_secret x_polar_secret (match shared_secret with
                                | Some x => x
                                | None => ""
                                end)
  then (HTTPException 401 "bad secret", s)
  else
    let w := PolarManager.world s in
    let '(ts, w1) :=
      match PolarManager.servers (PolarManager.self s) with
      | _ :: _ => (clock E (steps w),
                   mkWorld (S (steps w)) (event_q w) (spawned w))
      | [] => (0%Q, w)
      end in
    let thing := Event.mk (pe_type req) ts (pe_server_id req) (pe_data req) in
    (Accepted,
     PolarManager.mkSt (PolarManager.self s)
       (mkWorld (steps w1) (event_q w1 ++ [thing]) (spawned w1))).

End App.

(** ** process_adapter.py: the reader of the output *)







(** * Properties *)

Import ManagedServer.

Ltac unfold_monad :=
  unfold start, stop, restart, tick_supervisor, tick_health, _on_log_line,
    emit_status, spawn, _allow_restart, _emit, _now, _check_port_open,
    _check_http, is_running, config, on_proc, on_world, on_self,
    ProcessAdapter.start, ProcessAdapter.create_subprocess_exec,
    ProcessAdapter.stop, ProcessAdapter.in_world,
    and_await, when, zoom, interact, record_spawn, enqueue, try_,
    bind, ret, raise, gets, modify, ask.

(** ** What each method computes *)

Lemma emit_eq (E : Env) (type_ : string) (data : dict value) (s : St) :
  _emit type_ data E s =
  (Ok tt,
   mkSt (self s)
        (mkWorld (S (steps (world s)))
                 (event_q (world s) ++
                  [event_at E (steps (world s)) (self s) type_ data])
                 (spawned (world s)))).
Proof. reflexivity. Qed.

Lemma start_running_eq (E : Env) (reason : string) (s : St) :
  ProcessAdapter.is_running (proc (self s)) = true ->
  start reason E s = (Ok tt, s).
Proof. intros H. unfold_monad. rewrite H. reflexivity. Qed.

Lemma start_not_running_eq (E : Env) (reason : string) (s : St) :
  ProcessAdapter.is_running (proc (self s)) = false ->
  start reason E s =
  let n := steps (world s) in
  let e1 := event_at E n (self s) "status"
                     (status_data ServerStatus.starting reason) in
  let e2 := event_at E (2 + n) (self s) "status"
                     (status_data ServerStatus.running reason) in
  if spawn_ok E (1 + n) then
    (Ok tt,
     mkSt (set_status ServerStatus.running (set_proc live (self s)))
          (mkWorld (3 + n) (event_q (world s) ++ [e1; e2])
                   (spawned (world s) ++ [spawn_of E (self s)])))
  else
    (Exc OSError,
     mkSt (set_status ServerStatus.starting (self s))
          (mkWorld (2 + n) (event_q (world s) ++ [e1]) (spawned (world s)))).
Proof.
  intros H. destruct s as [[c p st h rt] [n q sp]].
  simpl in H. unfold_monad. simpl. rewrite H. simpl. rewrite H. simpl.
  destruct (spawn_ok E (S n)); simpl.
  - unfold event_at, spawn_of, live. simpl. rewrite <- app_assoc. reflexivity.
  - destruct p as [[[[c0|]]|]]; simpl in *; try discriminate; reflexivity.
Qed.

(** ** Starting a running server *)

(** C6.  [start] on a server whose process is running returns at once and
    leaves the server, the event queue and the list of spawned processes as
    they were; hence a [start] that follows a successful [start] changes
    nothing. *)
Theorem start_running_noop :
  forall (E : Env) (reason : string) (s : St),
    (ProcessAdapter.is_running (proc (self s)) = true ->
     start reason E s = (Ok tt, s)) /\
    (forall (r0 : string) (s0 : St),
        start r0 E s0 = (Ok tt, s) ->
        start reason E s = (Ok tt, s) /\
        (start r0 ;; start reason) E s0 = start r0 E s0).
Proof.
  intros E reason s.
  split; [apply start_running_eq|].
  intros r0 s0 H0.
  assert (Hrun : ProcessAdapter.is_running (proc (self s)) = true).
  { destruct (ProcessAdapter.is_running (proc (self s0))) eqn:R0.
    - rewrite (start_running_eq _ _ _ R0) in H0. inversion H0; subst. exact R0.
    - rewrite (start_not_running_eq _ _ _ R0) in H0. cbv zeta in H0.
      destruct (spawn_ok E _); inversion H0. reflexivity. }
  split; [exact (start_running_eq _ _ _ Hrun)|].
  unfold bind at 1. rewrite H0. exact (start_running_eq _ _ _ Hrun).
Qed.

(** ** Log lines *)

Lemma prefix_iff (p s : string) :
  String.prefix p s = true <-> exists post, s = p ++ post.
Proof.
  revert s. induction p as [|a p IH]; intros [|b s]; simpl.
  - split; [intros _; now exists "" | reflexivity].
  - split; [intros _; now exists (String b s) | reflexivity].
  - split; [discriminate | intros [post H]; discriminate].
  - destruct (Ascii.ascii_dec a b) as [->|Hne].
    + rewrite IH. split; intros [post H]; exists post.
      * now rewrite H.
      * now inversion H.
    + split; [discriminate | intros [post H]; inversion H; congruence].
Qed.

Lemma contains_eq (kw line : string) :
  contains kw line =
  if String.prefix kw line then true
  else match line with
       | EmptyString => false
       | String _ rest => contains kw rest
       end.
Proof. destruct line; reflexivity. Qed.

(** [contains] is the substring test. *)
Lemma contains_iff (kw line : string) :
  contains kw line = true <-> exists pre post, line = pre ++ kw ++ post.
Proof.
  induction line as [|c line IH]; rewrite contains_eq.
  - destruct (String.prefix kw "") eqn:P.
    + split; [intros _ | reflexivity].
      apply prefix_iff in P. destruct P as [post P]. now exists "", post.
    + split; [discriminate|].
      intros [pre [post H]]. destruct pre; simpl in H.
      * assert (String.prefix kw "" = true) by (apply prefix_iff; now exists post).
        congruence.
      * discriminate.
  - destruct (String.prefix kw (String c line)) eqn:P.
    + split; [intros _ | reflexivity].
      apply prefix_iff in P. destruct P as [post P]. now exists "", post.
    + rewrite IH. split.
      * intros [pre [post H]]. exists (String c pre), post. simpl. now rewrite H.
      * intros [pre [post H]]. destruct pre as [|c' pre]; simpl in H.
        -- assert (String.prefix kw (String c line) = true)
             by (apply prefix_iff; now exists post).
           congruence.
        -- inversion H. now exists pre, post.
Qed.

Lemma first_keyword_some (kws : list string) (line kw : string) :
  first_keyword kws line = Some kw <->
  exists before after,
    kws = (before ++ kw :: after)%list /\
    contains kw line = true /\
    Forall (fun k => contains k line = false) before.
Proof.
  induction kws as [|k kws IH]; simpl.
  - split; [discriminate|]. intros [b [a [H _]]]. destruct b; discriminate.
  - destruct (contains k line) eqn:C.
    + split.
      * intros H; inversion H; subst. exists [], kws. auto.
      * intros [b [a [H [Hc Hb]]]]. destruct b as [|k' b]; simpl in H.
        -- now inversion H.
        -- inversion H; subst. inversion Hb; congruence.
    + rewrite IH. split.
      * intros [b [a [H [Hc Hb]]]]. exists (k :: b), a. subst. auto.
      * intros [b [a [H [Hc Hb]]]]. destruct b as [|k' b]; simpl in H.
        -- inversion H; congruence.
        -- inversion H; subst. inversion Hb. now exists b, a.
Qed.

(** C8.  A line handed to the output callback adds one [log_line] event with
    the raw line and after it at most one [important_log] event, whose keyword
    is the first configured keyword that is a substring of the line; later
    keywords that occur in the line too add nothing. *)
Theorem on_log_line_events :
  forall (E : Env) (line : string) (s : St),
    let n := steps (world s) in
    let kws := ServerConfig.log_important_keywords (cfg (self s)) in
    let e_log := event_at E n (self s) "log_line" [("line", VStr line)] in
    let important := important_events E (S n) (self s) line in
    _on_log_line line E s =
      (Ok tt,
       mkSt (self s)
            (mkWorld (S n + List.length important)
                     (event_q (world s) ++ e_log :: important)
                     (spawned (world s)))) /\
    count_type "log_line" (e_log :: important) = 1%nat /\
    (count_type "important_log" (e_log :: important) <= 1)%nat /\
    (forall kw : string,
        In (event_at E (S n) (self s) "important_log"
                     [("line", VStr line); ("keyword", VStr kw)]) important <->
        exists before after,
          kws = (before ++ kw :: after)%list /\
          contains kw line = true /\
          Forall (fun k => contains k line = false) before).
Proof.
  intros E line [[c p st h rt] [n q sp]]. cbn zeta. simpl steps. simpl self.
  unfold important_events. simpl cfg.
  repeat split.
  - unfold_monad. simpl.
    destruct (first_keyword (ServerConfig.log_important_keywords c) line);
      simpl; rewrite <- ?app_assoc, ?Nat.add_1_r, ?Nat.add_0_r; reflexivity.
  - destruct (first_keyword _ line); reflexivity.
  - destruct (first_keyword _ line); unfold count_type; simpl; lia.
  - intros Hin. apply first_keyword_some.
    destruct (first_keyword _ line); simpl in Hin; [|contradiction].
    destruct Hin as [Hin|[]]. unfold event_at in Hin. now inversion Hin.
  - intros Hex. apply first_keyword_some in Hex. rewrite Hex. now left.
Qed.

(** ** Health *)

Lemma tick_health_eq (E : Env) (s : St) :
  let new_state := health_of (probes_and E s) in
  let evs := health_events E s in
  tick_health E s =
  (Ok tt,
   mkSt (set_health new_state (self s))
        (mkWorld (steps (world s) + probes_made E s + List.length evs)
                 (event_q (world s) ++ evs)
                 (spawned (world s)))).
Proof.
  destruct s as [[c p st h rt] [n q sp]].
  unfold health_events, probes_and, probes_made, port_configured,
    http_configured, health_of.
  unfold_monad. simpl.
  destruct (ServerConfig.health_port c) as [port|];
    destruct (ServerConfig.health_http_url c) as [[|a u]|]; simpl;
    try destruct (port_open E n); simpl;
    try destruct (http_ok E _); simpl;
    destruct h; simpl;
    rewrite <- ?Nat.add_assoc; simpl;
    rewrite ?app_nil_r, ?(Nat.add_comm n); reflexivity.
Qed.

Lemma health_eqb_eq (a b : HealthState.t) :
  HealthState.eqb a b = true <-> a = b.
Proof. destruct a, b; simpl; split; congruence. Qed.

Lemma health_events_nil (E : Env) (s : St) :
  health_events E s = [] <-> health_of (probes_and E s) = health (self s).
Proof.
  unfold health_events.
  destruct (HealthState.eqb _ _) eqn:H.
  - apply health_eqb_eq in H. tauto.
  - split; [discriminate|]. intros H'. apply health_eqb_eq in H'. congruence.
Qed.

(** C7.  At every evaluation of a sequence of [tick_health] calls the health
    computed is the conjunction of the configured probes (passed when none is
    configured) and becomes the stored state; the evaluation adds one
    [health] event when the computed state differs from the state stored by
    the evaluation before it, and no event otherwise, so two evaluations in
    a row with the same result emit nothing the second time. *)
Theorem health_event_iff_change :
  forall (E : Env) (s0 : St) (k : nat),
    let before := health_evals k E s0 in
    let after := health_evals (S k) E s0 in
    let computed := health_of (probes_and E before) in
    fst (tick_health E before) = Ok tt /\
    self after = set_health computed (self before) /\
    event_q (world after) =
      (event_q (world before) ++ health_events E before)%list /\
    (health_events E before = [] <-> computed = health (self before)) /\
    (health_events E before <> [] ->
     health_events E before =
       [event_at E (steps (world before) + probes_made E before)
                 (self before) "health"
                 [("health", VStr (HealthState.value computed))]]) /\
    (health_of (probes_and E after) = computed ->
     event_q (world (health_evals (S (S k)) E s0)) = event_q (world after)).
Proof.
  intros E s0 k before after computed.
  assert (Hafter : after = snd (tick_health E before)) by reflexivity.
  pose proof (tick_health_eq E before) as Heq. cbv zeta in Heq.
  rewrite Heq in Hafter. simpl in Hafter.
  repeat split.
  - now rewrite Heq.
  - now rewrite Hafter.
  - now rewrite Hafter.
  - apply health_events_nil.
  - apply health_events_nil.
  - intros Hne. unfold health_events in *.
    destruct (HealthState.eqb _ _); [congruence | reflexivity].
  - intros Hsame.
    change (health_evals (S (S k)) E s0) with (snd (tick_health E after)).
    pose proof (tick_health_eq E after) as Heq'. cbv zeta in Heq'.
    rewrite Heq'. simpl.
    assert (Hnil : health_events E after = []).
    { apply health_events_nil. rewrite Hsame, Hafter. reflexivity. }
    rewrite Hnil. apply app_nil_r.
Qed.

(** ** Crash detection *)

Lemma tick_running_eq (E : Env) (s : St) :
  ProcessAdapter.is_running (proc (self s)) = true ->
  tick_supervisor E s = (Ok tt, s).
Proof. intros H. unfold_monad. rewrite H. reflexivity. Qed.

Lemma tick_no_code_eq (E : Env) (s : St) :
  ProcessAdapter.is_running (proc (self s)) = false ->
  ProcessAdapter.exit_code (proc (self s)) = None ->
  tick_supervisor E s = (Ok tt, s).
Proof. intros H H'. unfold_monad. rewrite H, H'. reflexivity. Qed.

Lemma tick_exit_zero_eq (E : Env) (s : St) :
  ProcessAdapter.is_running (proc (self s)) = false ->
  ProcessAdapter.exit_code (proc (self s)) = Some 0%Z ->
  tick_supervisor E s =
  (Ok tt, mkSt (set_status ServerStatus.stopped (self s)) (world s)).
Proof. intros H H'. unfold_monad. rewrite H, H'. reflexivity. Qed.

Lemma tick_crash_eq (E : Env) (s : St) (c : Z) :
  ProcessAdapter.is_running (proc (self s)) = false ->
  ProcessAdapter.exit_code (proc (self s)) = Some c ->
  c <> 0%Z ->
  tick_supervisor E s =
  let n := steps (world s) in
  let me := set_status ServerStatus.crashed (self s) in
  let q := (event_q (world s) ++
            [event_at E n (self s) "crash" [("exit_code", VInt c)]])%list in
  if String.eqb (ServerConfig.restart_policy (cfg (self s))) "never" then
    (Ok tt, mkSt me (mkWorld (1 + n) q (spawned (world s))))
  else
    let kept := kept_restarts (clock E (1 + n)) (_restart_times (self s)) in
    if (Z.of_nat (List.length kept)
        <? ServerConfig.max_restart_per_minute (cfg (self s)))%Z then
      start "auto_restart" E
            (mkSt (set_restart_times (kept ++ [clock E (2 + n)]) me)
                  (mkWorld (3 + n) q (spawned (world s))))
    else
      (Ok tt,
       mkSt (set_restart_times kept me)
            (mkWorld (3 + n)
                     (q ++ [event_at E (2 + n) (self s) "warn"
                                     [("msg", VStr "restart rate limited")]])
                     (spawned (world s)))).
Proof.
  intros H H' Hc. apply Z.eqb_neq in Hc.
  destruct s as [[cf p st h rt] [n q sp]]. simpl in *.
  unfold tick_supervisor, bind at 1, is_running, gets at 1. simpl.
  rewrite H. unfold bind at 1, gets at 1. simpl. rewrite H', Hc.
  unfold bind at 1, on_self, modify. simpl.
  unfold bind at 1. rewrite emit_eq. simpl.
  unfold bind at 1, config, gets at 1. simpl.
  destruct (String.eqb (ServerConfig.restart_policy cf) "never"); [reflexivity|].
  unfold bind at 1, _allow_restart, _now, on_world, on_self, config, zoom,
    interact, modify, gets, bind, ret. simpl.
  fold (kept_restarts (clock E (S n)) rt).
  destruct (Z.of_nat _ <? _)%Z; simpl; reflexivity.
Qed.

Lemma start_policy (E : Env) (reason p : string) (s : St) :
  start reason E (policy_st p s) =
  (fst (start reason E s), policy_st p (snd (start reason E s))).
Proof.
  destruct (ProcessAdapter.is_running (proc (self s))) eqn:R.
  - rewrite !start_running_eq by exact R. reflexivity.
  - rewrite !start_not_running_eq by exact R. cbv zeta. simpl.
    destruct (spawn_ok E _); reflexivity.
Qed.

Lemma eqb_never (p : string) : p <> "never" -> String.eqb p "never" = false.
Proof. intros H. now apply String.eqb_neq. Qed.

Lemma tick_policy (E : Env) (p : string) (s : St) :
  p <> "never" ->
  ServerConfig.restart_policy (cfg (self s)) <> "never" ->
  tick_supervisor E (policy_st p s) =
  (fst (tick_supervisor E s), policy_st p (snd (tick_supervisor E s))).
Proof.
  intros Hp Hs.
  destruct (ProcessAdapter.is_running (proc (self s))) eqn:R.
  { rewrite !tick_running_eq by exact R. reflexivity. }
  destruct (ProcessAdapter.exit_code (proc (self s))) as [c|] eqn:C.
  2:{ rewrite !tick_no_code_eq by assumption. reflexivity. }
  destruct (Z.eq_dec c 0) as [->|Hc].
  { rewrite !tick_exit_zero_eq by assumption. reflexivity. }
  rewrite (tick_crash_eq E (policy_st p s) c) by assumption.
  rewrite (tick_crash_eq E s c) by assumption.
  cbv zeta. simpl.
  rewrite (eqb_never _ Hp), (eqb_never _ Hs).
  destruct (Z.of_nat _ <? _)%Z; [|reflexivity].
  match goal with
  | |- _ = (fst (start _ _ ?y), _) => exact (start_policy E "auto_restart" p y)
  end.
Qed.

Lemma policy_st_twice (p q : string) (s : St) :
  policy_st p (policy_st q s) = policy_st p s.
Proof. reflexivity. Qed.

(** C10.  [tick_supervisor] looks at the restart policy only to compare it
    with ["never"]: under any two policies other than ["never"] (["always"],
    ["on-failure"], or a string that is neither) a tick gives the same result
    and the same state; after a non-zero exit the policy ["never"] ends the
    tick after the [crash] event, and any other policy goes on to exactly
    one of a start for the reason ["auto_restart"] or the rate-limit [warn];
    an exit with code 0 sets the status to stopped and touches nothing else,
    whatever the policy. *)
Theorem restart_policy_only_never :
  forall (E : Env) (s : St),
    (forall p1 p2 : string,
        p1 <> "never" -> p2 <> "never" ->
        fst (tick_supervisor E (policy_st p2 s)) =
          fst (tick_supervisor E (policy_st p1 s)) /\
        snd (tick_supervisor E (policy_st p2 s)) =
          policy_st p2 (snd (tick_supervisor E (policy_st p1 s)))) /\
    (forall c : Z,
        ProcessAdapter.is_running (proc (self s)) = false ->
        ProcessAdapter.exit_code (proc (self s)) = Some c ->
        c <> 0%Z ->
        let e_crash :=
          event_at E (steps (world s)) (self s) "crash"
                   [("exit_code", VInt c)] in
        let after := snd (tick_supervisor E s) in
        let allowed :=
          (Z.of_nat (List.length
             (kept_restarts (clock E (1 + steps (world s)))
                            (_restart_times (self s))))
           <? ServerConfig.max_restart_per_minute (cfg (self s)))%Z in
        exists rest : list Event.t,
          event_q (world after) =
            (event_q (world s) ++ e_crash :: rest)%list /\
          count_type "crash" rest = 0%nat /\
          if String.eqb (ServerConfig.restart_policy (cfg (self s))) "never"
          then rest = [] /\ spawned (world after) = spawned (world s) /\
               status (self after) = ServerStatus.crashed
          else
            count_start_attempts "auto_restart" rest =
              (if allowed then 1%nat else 0%nat) /\
            count_type "warn" rest = (if allowed then 0%nat else 1%nat)) /\
    (ProcessAdapter.is_running (proc (self s)) = false ->
     ProcessAdapter.exit_code (proc (self s)) = Some 0%Z ->
     tick_supervisor E s =
       (Ok tt, mkSt (set_status ServerStatus.stopped (self s)) (world s))).
Proof.
  intros E s. split; [|split].
  - intros p1 p2 H1 H2.
    rewrite <- (policy_st_twice p2 p1 s).
    rewrite (tick_policy E p2 (policy_st p1 s) H2 H1). split; reflexivity.
  - intros c R C Hc e_crash after allowed.
    subst after. rewrite (tick_crash_eq E s c R C Hc). cbv zeta.
    destruct (String.eqb _ "never").
    + exists []. simpl. auto.
    + fold allowed. destruct allowed.
      * rewrite start_not_running_eq by exact R. cbv zeta.
        destruct (spawn_ok E _); simpl;
          rewrite <- app_assoc; simpl; eexists; (split; [reflexivity|]);
          repeat split; reflexivity.
      * simpl. rewrite <- app_assoc. simpl. eexists.
        split; [reflexivity|]. repeat split; reflexivity.
  - apply tick_exit_zero_eq.
Qed.

(** ** Stopping *)

Lemma stop_not_running_eq (E : Env) (reason : string) (s : St) :
  ProcessAdapter.is_running (proc (self s)) = false ->
  stop reason E s =
  (Ok tt,
   mkSt (set_status ServerStatus.stopped (self s))
        (mkWorld (1 + steps (world s))
                 (event_q (world s) ++
                  [event_at E (steps (world s)) (self s) "status"
                            (status_data ServerStatus.stopped reason)])
                 (spawned (world s)))).
Proof. intros H. unfold_monad. rewrite H. reflexivity. Qed.

Lemma stop_running_eq (E : Env) (reason : string) (s : St) :
  ProcessAdapter.is_running (proc (self s)) = true ->
  stop reason E s =
  let n := steps (world s) in
  let e1 := event_at E n (self s) "status"
                     (status_data ServerStatus.stopping reason) in
  let info :=
    if truthy_list (ServerConfig.stop_cmd (cfg (self s)))
    then [event_at E (1 + n) (self s) "info"
                   [("msg", VStr "stop_cmd not implemented yet")]]
    else [] in
  let k := (1 + List.length info + n)%nat in
  (Ok tt,
   mkSt (set_status ServerStatus.stopped
           (set_proc (ProcessAdapter.exited (term_code E k) (proc (self s)))
                     (self s)))
        (mkWorld (2 + k)
                 (event_q (world s) ++ e1 :: info ++
                  [event_at E (1 + k) (self s) "status"
                            (status_data ServerStatus.stopped reason)])
                 (spawned (world s)))).
Proof.
  intros H. destruct s as [[c p st h rt] [n q sp]]. simpl in H.
  unfold_monad. simpl. rewrite H. simpl.
  destruct (truthy_list (ServerConfig.stop_cmd c)); simpl; rewrite H; simpl;
    rewrite <- !app_assoc; reflexivity.
Qed.

Lemma stop_ok (E : Env) (reason : string) (s : St) :
  fst (stop reason E s) = Ok tt /\
  ProcessAdapter.is_running (proc (self (snd (stop reason E s)))) = false /\
  status (self (snd (stop reason E s))) = ServerStatus.stopped.
Proof.
  destruct (ProcessAdapter.is_running (proc (self s))) eqn:R.
  - rewrite stop_running_eq by exact R. cbv zeta. simpl.
    unfold ProcessAdapter.exited. rewrite R. auto.
  - rewrite stop_not_running_eq by exact R. simpl. auto.
Qed.

Lemma start_result (E : Env) (reason : string) (s : St) :
  fst (start reason E s) = Ok tt \/ fst (start reason E s) = Exc OSError.
Proof.
  destruct (ProcessAdapter.is_running (proc (self s))) eqn:R.
  - rewrite start_running_eq by exact R. now left.
  - rewrite start_not_running_eq by exact R. cbv zeta.
    destruct (spawn_ok E _); simpl; auto.
Qed.

Lemma restart_result (E : Env) (reason : string) (s : St) :
  fst (restart reason E s) = Ok tt \/ fst (restart reason E s) = Exc OSError.
Proof.
  unfold restart, bind.
  destruct (stop reason E s) as [r s'] eqn:Hs.
  pose proof (stop_ok E reason s) as [Hr _]. rewrite Hs in Hr. simpl in Hr.
  subst r. apply start_result.
Qed.

(** ** Dispatch of external actions *)

Lemma at_server_result {A : Type} (E : Env) (sid : string)
  (thing : ManagedServer.t) (m : M St A) (s : PolarManager.St) :
  fst (PolarManager.at_server sid thing m E s) =
  fst (m E (mkSt thing (PolarManager.world s))).
Proof.
  unfold PolarManager.at_server. destruct (m E _); reflexivity.
Qed.

(** C5.  [do_action] raises [KeyError] exactly when the server id is not a
    key of the server map, and [ValueError] when the id is known but the
    action is none of start, stop and restart; in both cases the manager,
    every server in it, the event queue and the spawned processes are what
    they were before the call. *)
Theorem do_action_errors :
  forall (E : Env) (server_id action reason : string) (s : PolarManager.St),
    let r := PolarManager.do_action server_id action reason E s in
    let known := dict_get (PolarManager.servers (PolarManager.self s))
                          server_id in
    ((exists msg, fst r = Exc (KeyError msg)) <-> known = None) /\
    (known = None -> r = (Exc (KeyError "unknown server_id"), s)) /\
    (known <> None ->
     action <> "start" -> action <> "stop" -> action <> "restart" ->
     r = (Exc (ValueError "unknown action"), s)).
Proof.
  intros E sid action reason s r known.
  unfold PolarManager.do_action, bind, gets in r. fold known in r.
  split; [|split].
  - split.
    + intros [msg H]. subst r. destruct known as [thing|]; [|reflexivity].
      exfalso.
      destruct (String.eqb action "start").
      { rewrite at_server_result in H.
        destruct (start_result E reason (mkSt thing (PolarManager.world s)))
          as [H'|H']; rewrite H' in H; discriminate. }
      destruct (String.eqb action "stop").
      { rewrite at_server_result in H.
        pose proof (stop_ok E reason (mkSt thing (PolarManager.world s)))
          as [H' _]. rewrite H' in H. discriminate. }
      destruct (String.eqb action "restart").
      { rewrite at_server_result in H.
        destruct (restart_result E reason (mkSt thing (PolarManager.world s)))
          as [H'|H']; rewrite H' in H; discriminate. }
      discriminate.
    + intros H. subst r. rewrite H. now exists "unknown server_id".
  - intros H. subst r. rewrite H. reflexivity.
  - intros H Hs Ht Hr. subst r. destruct known; [|congruence].
    apply String.eqb_neq in Hs, Ht, Hr. rewrite Hs, Ht, Hr. reflexivity.
Qed.

(** ** Construction of the manager *)

Section Dict.
Context {V : Type}.

Lemma dict_get_set (d : dict V) (k k' : string) (v : V) :
  dict_get (dict_set d k v) k' =
  if String.eqb k k' then Some v else dict_get d k'.
Proof.
  induction d as [|[k0 v0] d IH]; simpl.
  - reflexivity.
  - destruct (String.eqb k0 k) eqn:K0; simpl.
    + apply String.eqb_eq in K0. subst k0.
      destruct (String.eqb k k'); reflexivity.
    + rewrite IH. destruct (String.eqb k0 k') eqn:K1; [|reflexivity].
      apply String.eqb_eq in K1. subst k0.
      rewrite String.eqb_sym in K0. now rewrite K0.
Qed.

Lemma dict_keys_set (d : dict V) (k : string) (v : V) :
  dict_keys (dict_set d k v) =
  if existsb (String.eqb k) (dict_keys d) then dict_keys d
  else (dict_keys d ++ [k])%list.
Proof.
  unfold dict_keys.
  induction d as [|[k0 v0] d IH]; simpl.
  - reflexivity.
  - rewrite (String.eqb_sym k k0).
    destruct (String.eqb k0 k); simpl; [reflexivity|].
    rewrite IH. destruct (existsb _ _); reflexivity.
Qed.

Lemma dict_keys_set_nodup (d : dict V) (k : string) (v : V) :
  NoDup (dict_keys d) -> NoDup (dict_keys (dict_set d k v)).
Proof.
  intros H. rewrite dict_keys_set.
  destruct (existsb _ _) eqn:Ex; [exact H|].
  apply NoDup_app; [exact H | repeat constructor; intros [] |].
  intros x Hx [->|[]].
  assert (existsb (String.eqb x) (dict_keys d) = true); [|congruence].
  apply existsb_exists. exists x. split; [exact Hx | apply String.eqb_refl].
Qed.

Lemma dict_keys_set_in (d : dict V) (k k' : string) (v : V) :
  In k' (dict_keys (dict_set d k v)) <-> k' = k \/ In k' (dict_keys d).
Proof.
  rewrite dict_keys_set. destruct (existsb _ _) eqn:Ex.
  - apply existsb_exists in Ex. destruct Ex as [x [Hx Hk]].
    apply String.eqb_eq in Hk. subst x. split; [auto|].
    intros [->|H]; assumption.
  - rewrite in_app_iff. simpl. intuition congruence.
Qed.

Lemma dict_get_in_keys (d : dict V) (k : string) :
  dict_get d k <> None <-> In k (dict_keys d).
Proof.
  induction d as [|[k0 v0] d IH]; simpl.
  - tauto.
  - destruct (String.eqb k0 k) eqn:K.
    + apply String.eqb_eq in K. split; [auto | discriminate].
    + apply String.eqb_neq in K. rewrite IH. unfold dict_keys. intuition.
Qed.

End Dict.

Lemma init_servers (c : AppConfig.t) :
  PolarManager.servers (PolarManager.init c) =
  fold_left PolarManager.add_server (PolarManager.instantiated c) [].
Proof. reflexivity. Qed.

Lemma fold_add_nodup (l : list ManagedServer.t) (d : dict ManagedServer.t) :
  NoDup (dict_keys d) -> NoDup (dict_keys (fold_left PolarManager.add_server l d)).
Proof.
  revert d. induction l as [|s l IH]; intros d H; simpl; [exact H|].
  apply IH. now apply dict_keys_set_nodup.
Qed.

Lemma fold_add_keys (l : list ManagedServer.t) (d : dict ManagedServer.t)
  (k : string) :
  In k (dict_keys (fold_left PolarManager.add_server l d)) <->
  In k (dict_keys d) \/ In k (map (fun s => ServerConfig.id (cfg s)) l).
Proof.
  revert d. induction l as [|s l IH]; intros d; simpl; [tauto|].
  rewrite IH. unfold PolarManager.add_server at 1. rewrite dict_keys_set_in.
  intuition congruence.
Qed.

Lemma fold_add_get (l : list ManagedServer.t) (d : dict ManagedServer.t)
  (k : string) (s : ManagedServer.t) :
  dict_get (fold_left PolarManager.add_server l d) k = Some s ->
  dict_get d k = Some s \/ (In s l /\ ServerConfig.id (cfg s) = k).
Proof.
  revert d. induction l as [|s0 l IH]; intros d H; simpl in *; [now left|].
  apply IH in H. destruct H as [H|[H1 H2]]; [|now right; auto].
  unfold PolarManager.add_server in H. rewrite dict_get_set in H.
  destruct (String.eqb _ k) eqn:K; [|now left].
  apply String.eqb_eq in K. inversion H; subst. right. auto.
Qed.

Lemma slice_to_nonneg {A : Type} (n : Z) (xs : list A) :
  (0 <= n)%Z -> slice_to n xs = firstn (Z.to_nat n) xs.
Proof. intros H. unfold slice_to. apply Z.leb_le in H. now rewrite H. Qed.

(** C9, the claim as worded fails for a negative bound: with [max_servers]
    -1 and two configured servers one [ManagedServer] is created, which is
    more than the bound. *)
Lemma init_negative_bound :
  List.length (PolarManager.instantiated app_negative) = 1%nat /\
  (AppConfig.max_servers app_negative
   < Z.of_nat (List.length (PolarManager.instantiated app_negative)))%Z /\
  dict_keys (PolarManager.servers (PolarManager.init app_negative)) = ["a"].
Proof. repeat split. Qed.

(** C9, amended.  When [max_servers] is not negative, construction creates
    one [ManagedServer] for each of the first [max_servers] configured
    entries, hence at most [max_servers] of them, and the server map holds
    exactly one of the created servers for each distinct id among those
    entries. *)
Theorem init_truncates :
  forall c : AppConfig.t,
    (0 <= AppConfig.max_servers c)%Z ->
    let m := PolarManager.init c in
    retained c = firstn (Z.to_nat (AppConfig.max_servers c))
                        (AppConfig.servers c) /\
    PolarManager.instantiated c = map ManagedServer.init (retained c) /\
    (Z.of_nat (List.length (PolarManager.instantiated c))
     <= AppConfig.max_servers c)%Z /\
    NoDup (dict_keys (PolarManager.servers m)) /\
    (forall sid : string,
        In sid (dict_keys (PolarManager.servers m)) <->
        In sid (map ServerConfig.id (retained c))) /\
    (forall (sid : string) (s : ManagedServer.t),
        dict_get (PolarManager.servers m) sid = Some s ->
        In s (PolarManager.instantiated c) /\
        ServerConfig.id (cfg s) = sid).
Proof.
  intros c Hmax m. subst m. rewrite init_servers.
  assert (Hret : retained c = firstn (Z.to_nat (AppConfig.max_servers c))
                                     (AppConfig.servers c))
    by (apply slice_to_nonneg; exact Hmax).
  split; [exact Hret|]. split; [reflexivity|]. split.
  - unfold PolarManager.instantiated. fold (retained c).
    rewrite length_map, Hret, length_firstn. lia.
  - split; [apply fold_add_nodup; constructor|]. split.
    + intros sid. rewrite fold_add_keys. simpl.
      unfold PolarManager.instantiated. fold (retained c).
      rewrite map_map. simpl. tauto.
    + intros sid s H. apply fold_add_get in H.
      destruct H as [H|H]; [discriminate | exact H].
Qed.

Lemma init_truncates_witness :
  (0 <= AppConfig.max_servers app_two)%Z /\
  NoDup (dict_keys (PolarManager.servers (PolarManager.init app_two))).
Proof.
  split; [vm_compute; discriminate|].
  apply (init_truncates app_two). vm_compute. discriminate.
Defined.

(** ** Booting *)

Lemma for_items_first_raises (body : M St unit) (E : Env) (w : World)
  (sid : string) (s : ManagedServer.t) (rest : dict ManagedServer.t)
  (e : exn) (st : St) :
  body E (mkSt s w) = (Exc e, st) ->
  PolarManager.for_items body ((sid, s) :: rest) E w =
  (Exc e, (sid, self st) :: rest, world st).
Proof. intros H. simpl. rewrite H. reflexivity. Qed.

(** When no start raises, [start_all] starts the servers one after the
    other, each from the world the one before left. *)
Lemma for_items_ok (body : M St unit) (E : Env) (w : World)
  (sid : string) (s : ManagedServer.t) (rest : dict ManagedServer.t)
  (st : St) :
  body E (mkSt s w) = (Ok tt, st) ->
  PolarManager.for_items body ((sid, s) :: rest) E w =
  let '(r, rest', w') := PolarManager.for_items body rest E (world st) in
  (r, (sid, self st) :: rest', w').
Proof. intros H. simpl. rewrite H. reflexivity. Qed.

Lemma for_items_try (body : M St unit) (E : Env)
  (items : dict ManagedServer.t) (w : World) :
  let '(r, items', _) := PolarManager.for_items (try_ body) items E w in
  r = Ok tt /\ dict_keys items' = dict_keys items.
Proof.
  revert w. induction items as [|[sid sv] items IH]; intros w; simpl; [auto|].
  unfold try_ at 1.
  destruct (body E (mkSt sv w)) as [[[]|e] st];
    specialize (IH (world st));
    destruct (PolarManager.for_items _ items E (world st)) as [[r it] w'];
    simpl in *; destruct IH as [IH1 IH2]; split; congruence.
Qed.

(** The supervision loop, by contrast, visits every server whatever the
    ticks of the servers before it raised. *)
Lemma loop_pass_visits_all (E : Env) (s : PolarManager.St) :
  fst (PolarManager.loop_pass E s) = Ok tt /\
  dict_keys (PolarManager.servers (PolarManager.self
               (snd (PolarManager.loop_pass E s)))) =
  dict_keys (PolarManager.servers (PolarManager.self s)).
Proof.
  unfold PolarManager.loop_pass, PolarManager.for_servers.
  pose proof (for_items_try (tick_supervisor;; tick_health) E
                (PolarManager.servers (PolarManager.self s))
                (PolarManager.world s)) as H.
  destruct (PolarManager.for_items _ _ E _) as [[r it] w'].
  simpl. exact H.
Qed.

(** C1, the code at a failing input: two servers [a] and [b], and the spawn
    of [a] fails.  [start_all] ends with the exception of [a]; [b] is still
    stopped, no event names it and no process was created, although a start
    of [b] in the world [a] left would have succeeded. *)
Theorem start_all_stops_at_first_failure :
  let r := PolarManager.start_all env_first_spawn_fails manager_two in
  fst r = Exc OSError /\
  statuses (snd r) =
    [("a", ServerStatus.starting); ("b", ServerStatus.stopped)] /\
  map Event.server_id (event_q (PolarManager.world (snd r))) = [Some "a"] /\
  spawned (PolarManager.world (snd r)) = [] /\
  fst (start "boot" env_first_spawn_fails
             (mkSt (ManagedServer.init cfg_b) (PolarManager.world (snd r))))
  = Ok tt.
Proof. vm_compute. repeat split. Qed.

(** ** Interleavings of [stop] and [tick_supervisor] *)

Import Machine.

Ltac break_if :=
  match goal with
  | |- context [if ?b then _ else _] => destruct b eqn:?
  | |- context [match ?x with Some _ => _ | None => _ end] => destruct x eqn:?
  end.

Ltac pick := solve [repeat (first [left; reflexivity | right])].

(** Every piece of code ends in one of its listed outcomes. *)
Lemma segment_outcomes (E : Env) (reason : string) (p : pc) (s : St) :
  In (view_thread (result_thread (fst (segment reason p E s))),
      ProcessAdapter.is_running (proc (self (snd (segment reason p E s)))),
      status (self (snd (segment reason p E s))))
     (outcomes p (ProcessAdapter.is_running (proc (self s)))
               (status (self s))).
Proof.
  destruct s as [[c [[[[z|]]|]] sts h rt] [n q sp]]; destruct p;
    unfold segment, stop_proc, stop_finish; unfold_monad; simpl;
    repeat (break_if; simpl); pick.
Qed.

Lemma enabled_view (p : pc) (s : St) (l : bool) :
  enabled p s l = view_enabled p (ProcessAdapter.is_running (proc (self s))) l.
Proof. destruct p; reflexivity. Qed.

Lemma run_piece_view (E : Env) (reason : string) (p : pc) (s s' : St)
  (l l' : bool) (t : thread) :
  run_piece E reason p s l = (t, s', l') ->
  In (view_thread t, ProcessAdapter.is_running (proc (self s')),
      status (self s'))
     (outcomes p (ProcessAdapter.is_running (proc (self s)))
               (status (self s))) /\
  l' = view_lock p (view_thread t) l.
Proof.
  unfold run_piece. pose proof (segment_outcomes E reason p s) as H.
  destruct (segment reason p E s) as [[p'|e] s1]; simpl in H;
    intros Heq; inversion Heq; subst; split; auto.
Qed.

(** The view of a step of the machine is a step of the view; it is a [live]
    step when the step does not end the respawned process on its own. *)
Lemma step_view (E : Env) (reason : string) (live : bool) (l : label)
  (c c' : Config) :
  step E reason l c = Some c' ->
  (live = true -> l = ProcExit -> on_its_own c = false) ->
  In (view c') (view_step live l (view c)).
Proof.
  destruct c as [s lk ts tt rs]. destruct l; unfold step, view_step; simpl.
  - destruct ts as [p|e]; simpl; [|discriminate].
    rewrite enabled_view. destruct (view_enabled _ _ _); [|discriminate].
    destruct (run_piece E reason p s lk) as [[t s'] l'] eqn:R.
    apply run_piece_view in R. destruct R as [Hin ->].
    intros H _; inversion H; subst. unfold view; simpl.
    apply in_map_iff. eexists. split; [|exact Hin]. reflexivity.
  - destruct tt as [p|e]; simpl; [|discriminate].
    rewrite enabled_view. destruct (view_enabled _ _ _); [|discriminate].
    destruct (run_piece E tick_reason p s lk) as [[t s'] l'] eqn:R.
    apply run_piece_view in R. destruct R as [Hin ->].
    intros H _; inversion H; subst. unfold view; simpl.
    apply in_map_iff. eexists. split; [|exact Hin].
    simpl. destruct p, t; reflexivity.
  - destruct (ProcessAdapter.is_running (proc (self s))) eqn:Hr;
      [|discriminate].
    intros H Hlive; inversion H; subst. unfold view; simpl.
    assert (Hguard :
      negb live ||
      negb (rs && negb match view_thread ts with
                       | Some StopWait => true
                       | _ => false
                       end) = true).
    { destruct live; [|reflexivity]. simpl.
      specialize (Hlive eq_refl eq_refl).
      unfold on_its_own, asked_to_end in Hlive. simpl in Hlive.
      destruct ts as [[]|]; simpl in *; now rewrite Hlive. }
    rewrite Hguard. simpl.
    unfold ProcessAdapter.exited. rewrite Hr. simpl. now left.
Qed.

Lemma status_eqb_eq (a b : ServerStatus.t) :
  ServerStatus.eqb a b = true <-> a = b.
Proof. destruct a, b; simpl; split; congruence. Qed.

Lemma pc_eqb_eq (a b : pc) : pc_eqb a b = true <-> a = b.
Proof. destruct a, b; simpl; split; congruence. Qed.

Lemma opc_eqb_eq (a b : option pc) : opc_eqb a b = true <-> a = b.
Proof.
  destruct a, b; simpl; try (split; congruence).
  rewrite pc_eqb_eq. split; congruence.
Qed.

Lemma view_eqb_eq (a b : View) : view_eqb a b = true <-> a = b.
Proof.
  destruct a, b. unfold view_eqb. simpl.
  rewrite !andb_true_iff, !Bool.eqb_true_iff, status_eqb_eq, !opc_eqb_eq.
  split; [intros [[[[[-> ->] ->] ->] ->] ->]; reflexivity|].
  intros H; inversion H; auto 10.
Qed.

Lemma seen_iff (v : View) (vs : list View) : seen v vs = true <-> In v vs.
Proof.
  unfold seen. rewrite existsb_exists. split.
  - intros [x [Hx Heq]]. apply view_eqb_eq in Heq. now subst.
  - intros H. exists v. split; [exact H | now apply view_eqb_eq].
Qed.

Lemma reachable_closed (live : bool) :
  forallb (fun v => forallb (fun v' => seen v' (reachable live))
                            (view_next live v))
          (reachable live) = true.
Proof. destruct live; vm_compute; reflexivity. Qed.

Lemma reachable_initial (live : bool) :
  forallb (fun v => seen v (reachable live)) initial_views = true.
Proof. destruct live; vm_compute; reflexivity. Qed.

(** With every step allowed, no finished view has a running process and
    the status crashed. *)
Lemma reachable_never_running_crashed :
  forallb (fun v => implb (view_finished (v_stopper v) &&
                           view_finished (v_ticker v))
                          (negb (v_running v &&
                                 ServerStatus.eqb (v_status v)
                                                  ServerStatus.crashed)))
          (reachable false) = true.
Proof. vm_compute. reflexivity. Qed.

(** With the [live] steps, no finished view contradicts itself. *)
Lemma reachable_live_agree :
  forallb (fun v => implb (view_finished (v_stopper v) &&
                           view_finished (v_ticker v))
                          (negb (view_contradicts v)))
          (reachable true) = true.
Proof. vm_compute. reflexivity. Qed.

Opaque reachable reachable_any reachable_live.

Lemma initial_reachable (live : bool) (s : St) :
  In (view (initial s)) (reachable live).
Proof.
  assert (Hin : In (view (initial s)) initial_views).
  { unfold view, initial, initial_views. simpl.
    destruct (ProcessAdapter.is_running _), (status (self s)); simpl; tauto. }
  pose proof (reachable_initial live) as H.
  pose proof (proj1 (forallb_forall _ _) H _ Hin) as H'.
  exact (proj1 (seen_iff _ _) H').
Qed.

Lemma step_reachable (E : Env) (reason : string) (live : bool) (l : label)
  (c c' : Config) :
  In (view c) (reachable live) ->
  step E reason l c = Some c' ->
  (live = true -> l = ProcExit -> on_its_own c = false) ->
  In (view c') (reachable live).
Proof.
  intros Hin Hstep Hlive.
  pose proof (step_view E reason live l c c' Hstep Hlive) as Hv.
  assert (Hnext : In (view c') (view_next live (view c))).
  { unfold view_next. rewrite !in_app_iff.
    destruct l; [left | right; left | right; right]; exact Hv. }
  pose proof (proj1 (forallb_forall _ _) (reachable_closed live) _ Hin) as H.
  pose proof (proj1 (forallb_forall _ _) H _ Hnext) as H'.
  exact (proj1 (seen_iff _ _) H').
Qed.

Lemma run_reachable (E : Env) (reason : string) (sched : list label) :
  forall c c' : Config,
    In (view c) (reachable false) -> run E reason sched c = Some c' ->
    In (view c') (reachable false).
Proof.
  induction sched as [|l sched IH]; intros c c' Hin Hrun; simpl in Hrun.
  - inversion Hrun; subst. exact Hin.
  - destruct (step E reason l c) as [c1|] eqn:Hs; [|discriminate].
    apply (IH c1); [|exact Hrun].
    apply (step_reachable E reason false l c c1 Hin Hs). discriminate.
Qed.

Lemma run_reachable_live (E : Env) (reason : string) (sched : list label) :
  forall c c' : Config,
    In (view c) (reachable true) -> run E reason sched c = Some c' ->
    respawn_survives E reason sched c = true ->
    In (view c') (reachable true).
Proof.
  induction sched as [|l sched IH]; intros c c' Hin Hrun Hlive;
    simpl in Hrun, Hlive.
  - inversion Hrun; subst. exact Hin.
  - destruct (step E reason l c) as [c1|] eqn:Hs; [|discriminate].
    apply andb_prop in Hlive. destruct Hlive as [Hl Hrest].
    apply (IH c1); [|exact Hrun | exact Hrest].
    apply (step_reachable E reason true l c c1 Hin Hs).
    intros _ ->. now apply negb_true_iff in Hl.
Qed.

Lemma finished_view (t : thread) : view_finished (view_thread t) = finished t.
Proof. destruct t as [[]|]; reflexivity. Qed.

(** C4, the claim as worded fails: [stop] finds the crashed server [a] and
    returns, the tick restarts it, and the new process ends on its own
    before the tick has returned.  Both coroutines have ended, the process
    does not run and the status is running. *)
Lemma respawned_process_may_exit :
  exists c : Config,
    run env_fine "api" respawn_exit_schedule (initial crashed_a) = Some c /\
    finished (stopper c) = true /\
    finished (ticker c) = true /\
    ProcessAdapter.is_running (proc (self (st c))) = false /\
    status (self (st c)) = ServerStatus.running /\
    respawn_survives env_fine "api" respawn_exit_schedule (initial crashed_a)
    = false.
Proof.
  eexists. split; [vm_compute; reflexivity|].
  repeat split.
Qed.

(** C4, amended.  Whatever the server and its world are when [stop] and
    [tick_supervisor] start, and however their pieces and the end of the
    process interleave, once both coroutines have ended it is not the case
    that the process runs while the status is crashed; and when the process
    the tick created did not end on its own (it lives until [stop] asks it
    to end), it is not the case either that the process does not run while
    the status is running. *)
Theorem stop_tick_race_agrees :
  forall (E : Env) (reason : string) (sched : list label) (s : St)
         (c : Config),
    run E reason sched (initial s) = Some c ->
    finished (stopper c) = true ->
    finished (ticker c) = true ->
    ~ (ProcessAdapter.is_running (proc (self (st c))) = true /\
       status (self (st c)) = ServerStatus.crashed) /\
    (respawn_survives E reason sched (initial s) = true ->
     ~ (ProcessAdapter.is_running (proc (self (st c))) = false /\
        status (self (st c)) = ServerStatus.running)).
Proof.
  intros E reason sched s c Hrun Hs Ht. split.
  - pose proof (run_reachable E reason sched _ _
                  (initial_reachable false s) Hrun) as Hin.
    pose proof (proj1 (forallb_forall _ _)
                  reachable_never_running_crashed _ Hin) as H.
    simpl in H. rewrite !finished_view, Hs, Ht in H. simpl in H.
    apply negb_true_iff in H.
    intros [Hr Hst]. rewrite Hr, Hst in H. discriminate.
  - intros Hlive.
    pose proof (run_reachable_live E reason sched _ _
                  (initial_reachable true s) Hrun Hlive) as Hin.
    pose proof (proj1 (forallb_forall _ _) reachable_live_agree _ Hin) as H.
    simpl in H. rewrite !finished_view, Hs, Ht in H. simpl in H.
    apply negb_true_iff in H. unfold view_contradicts in H. simpl in H.
    apply orb_false_iff in H. destruct H as [_ H2].
    intros [Hr Hst]. rewrite Hr, Hst in H2. discriminate.
Qed.

(** *** The machine run by one coroutine is the method *)

Lemma tick_alone_refines (E : Env) (s : St) (ts : thread) (rs : bool) :
  let c := run_tick_alone 7 E (mkConfig s false ts (At TickEnter) rs) in
  outcome (ticker c) = Some (fst (tick_supervisor E s)) /\
  st c = snd (tick_supervisor E s) /\
  lock c = false /\ stopper c = ts.
Proof.
  destruct s as [[cf [[[[z|]]|]] sts h rt] [n q sp]];
    unfold run_tick_alone, step, run_piece, enabled, segment, tick_reason,
      tick_supervisor;
    unfold_monad; simpl.
  - destruct (z =? 0)%Z; simpl; [auto|].
    destruct (ServerConfig.restart_policy cf =? "never"); simpl; [auto|].
    destruct (negb _); simpl; [auto|].
    destruct (spawn_ok E _); simpl; auto.
  - auto.
  - auto.
Qed.

Lemma stop_alone_refines (E : Env) (reason : string) (s : St) (tt' : thread)
  (rs : bool) :
  let c := run_stop_alone 7 E reason
                          (mkConfig s false (At StopAcquire) tt' rs) in
  outcome (stopper c) = Some (fst (stop reason E s)) /\
  st c = snd (stop reason E s) /\
  lock c = false /\ ticker c = tt'.
Proof.
  destruct s as [[cf [[[[z|]]|]] sts h rt] [n q sp]];
    unfold run_stop_alone, step, run_piece, enabled, segment, stop_proc,
      stop_finish, proc_exit, stop;
    unfold_monad; simpl; auto.
  destruct (truthy_list (ServerConfig.stop_cmd cf)); simpl;
    rewrite <- ?app_assoc; auto.
Qed.

Lemma stop_tick_race_agrees_witness :
  exists c : Config,
    run env_fine "api" race_schedule (initial started_a) = Some c /\
    finished (stopper c) = true /\
    finished (ticker c) = true /\
    respawn_survives env_fine "api" race_schedule (initial started_a) = true /\
    status (self (st c)) = ServerStatus.running /\
    ProcessAdapter.is_running (proc (self (st c))) = true /\
    count_type "crash" (event_q (world (st c))) = 1%nat /\
    ~ (ProcessAdapter.is_running (proc (self (st c))) = true /\
       status (self (st c)) = ServerStatus.crashed) /\
    ~ (ProcessAdapter.is_running (proc (self (st c))) = false /\
       status (self (st c)) = ServerStatus.running).
Proof.
  destruct (run env_fine "api" race_schedule (initial started_a))
    as [c|] eqn:Hrun; [|vm_compute in Hrun; discriminate].
  exists c.
  assert (Hlive : respawn_survives env_fine "api" race_schedule
                                   (initial started_a) = true)
    by (vm_compute; reflexivity).
  pose proof (stop_tick_race_agrees env_fine "api" race_schedule started_a c
                Hrun) as Hthm.
  assert (Hc : Some c = run env_fine "api" race_schedule (initial started_a))
    by (symmetry; exact Hrun).
  vm_compute in Hc. inversion Hc; subst c. clear Hc.
  specialize (Hthm eq_refl eq_refl). destruct Hthm as [H1 H2].
  split; [reflexivity|]. split; [reflexivity|]. split; [reflexivity|].
  split; [exact Hlive|].
  split; [reflexivity|]. split; [reflexivity|]. split; [reflexivity|].
  split; [exact H1 | exact (H2 Hlive)].
Defined.

(** ** A crash and its restart *)

Lemma started_eq (E : Env) (c : ServerConfig.t) (w : World) (reason : string) :
  spawn_ok E (1 + steps w) = true ->
  started E c w reason =
  mkSt (ManagedServer.mk c live ServerStatus.running HealthState.ok [])
       (mkWorld (3 + steps w)
                (event_q w ++
                 [event_at E (steps w) (ManagedServer.init c) "status"
                           (status_data ServerStatus.starting reason);
                  event_at E (2 + steps w) (ManagedServer.init c) "status"
                           (status_data ServerStatus.running reason)])
                (spawned w ++ [spawn_of E (ManagedServer.init c)])).
Proof.
  intros H. unfold started.
  rewrite start_not_running_eq by reflexivity. cbv zeta. simpl.
  simpl in H. rewrite H. reflexivity.
Qed.

(** C3.  A server with policy ["always"] and at most 6 restarts a minute is
    started and its process then exits with code 1.  The next
    [tick_supervisor] returns normally, leaves the status at running with a
    new process, and adds to the event queue one [crash] event with exit
    code 1 and then the two [status] events of the restart, in this order;
    piece by piece the status is crashed, then starting, then running. *)
Theorem crash_then_restart :
  forall (E : Env) (c : ServerConfig.t) (w : World) (reason : string),
    ServerConfig.restart_policy c = "always" ->
    ServerConfig.max_restart_per_minute c = 6%Z ->
    spawn_ok E (1 + steps w) = true ->
    spawn_ok E (7 + steps w) = true ->
    let s := crash 1 (started E c w reason) in
    let n := steps (world s) in
    let after := snd (tick_supervisor E s) in
    fst (tick_supervisor E s) = Ok tt /\
    event_q (world after) =
      (event_q (world s) ++
       [event_at E n (self s) "crash" [("exit_code", VInt 1)];
        event_at E (3 + n) (self s) "status"
                 (status_data ServerStatus.starting "auto_restart");
        event_at E (5 + n) (self s) "status"
                 (status_data ServerStatus.running "auto_restart")])%list /\
    status (self after) = ServerStatus.running /\
    ProcessAdapter.is_running (proc (self after)) = true /\
    spawned (world after) = (spawned (world s) ++ [spawn_of E (self s)])%list /\
    run E "" (repeat RunTick 7) (tick_only s) =
      Some (mkConfig after false (At Return) (At Return) true) /\
    map status_of (trace E "" (repeat RunTick 7) (tick_only s)) =
      [ServerStatus.crashed; ServerStatus.crashed; ServerStatus.crashed;
       ServerStatus.starting; ServerStatus.starting;
       ServerStatus.running; ServerStatus.running].
Proof.
  intros E c w reason Hp Hm H1 H7 s n after.
  assert (Hs : s =
    mkSt (ManagedServer.mk c
            (ProcessAdapter.mk (Some (Process.mk (Some 1%Z))))
            ServerStatus.running HealthState.ok [])
         (mkWorld (3 + steps w)
            (event_q w ++
             [event_at E (steps w) (ManagedServer.init c) "status"
                       (status_data ServerStatus.starting reason);
              event_at E (2 + steps w) (ManagedServer.init c) "status"
                       (status_data ServerStatus.running reason)])
            (spawned w ++ [spawn_of E (ManagedServer.init c)]))).
  { subst s. rewrite (started_eq E c w reason H1). reflexivity. }
  clearbody s.
  assert (H7' : spawn_ok E (4 + steps (world s)) = true).
  { rewrite Hs. exact H7. }
  assert (Htick : tick_supervisor E s =
    (Ok tt,
     mkSt (ManagedServer.mk c live ServerStatus.running HealthState.ok
             [clock E (2 + n)])
          (mkWorld (6 + n)
             (event_q (world s) ++
              [event_at E n (self s) "crash" [("exit_code", VInt 1)];
               event_at E (3 + n) (self s) "status"
                        (status_data ServerStatus.starting "auto_restart");
               event_at E (5 + n) (self s) "status"
                        (status_data ServerStatus.running "auto_restart")])
             (spawned (world s) ++ [spawn_of E (self s)])))).
  { subst n. rewrite (tick_crash_eq E s 1%Z);
      [|rewrite Hs; reflexivity | rewrite Hs; reflexivity | discriminate].
    cbv zeta.
    replace (ServerConfig.restart_policy (cfg (self s))) with "always"
      by (rewrite Hs; symmetry; exact Hp).
    replace (ServerConfig.max_restart_per_minute (cfg (self s))) with 6%Z
      by (rewrite Hs; symmetry; exact Hm).
    replace (_restart_times (self s)) with (@nil Q) by (rewrite Hs; reflexivity).
    simpl String.eqb. simpl kept_restarts. simpl Z.ltb.
    rewrite start_not_running_eq by (rewrite Hs; reflexivity).
    cbv zeta. simpl steps. simpl world.
    match goal with
    | |- context [spawn_ok E ?k] =>
        change (spawn_ok E k) with (spawn_ok E (4 + steps (world s)))
    end.
    rewrite H7'. rewrite Hs. simpl. rewrite <- !app_assoc. reflexivity. }
  subst after. rewrite Htick. simpl fst. simpl snd.
  split; [reflexivity|]. split; [reflexivity|]. split; [reflexivity|].
  split; [reflexivity|]. split; [reflexivity|].
  assert (H7s : spawn_ok E (S (S (S (S (S (S (S (steps w)))))))) = true)
    by exact H7.
  subst n. rewrite Hs. clear Hs Htick H7' s.
  split.
  - unfold tick_only, step, run_piece, enabled, segment, tick_reason.
    simpl repeat. unfold run, step, run_piece, enabled, segment, tick_reason.
    unfold_monad. simpl. rewrite Hp. simpl. rewrite Hm. simpl. rewrite H7s.
    simpl. rewrite <- !app_assoc. reflexivity.
  - simpl repeat.
    unfold tick_only, trace, step, run_piece, enabled, segment, tick_reason,
      status_of.
    unfold_monad. simpl. rewrite Hp. simpl. rewrite Hm. simpl. rewrite H7s.
    reflexivity.
Qed.

(** ** The restart window *)

Lemma count_type_app (ty : string) (a b : list Event.t) :
  count_type ty (a ++ b) = (count_type ty a + count_type ty b)%nat.
Proof. unfold count_type. now rewrite filter_app, length_app. Qed.

Lemma count_start_attempts_app (r : string) (a b : list Event.t) :
  count_start_attempts r (a ++ b) =
  (count_start_attempts r a + count_start_attempts r b)%nat.
Proof. unfold count_start_attempts. now rewrite filter_app, length_app. Qed.

Lemma kept_all (now : Q) (times : list Q) :
  Forall (fun t => (now - 60 <= t)%Q) times ->
  kept_restarts now times = times.
Proof.
  induction 1 as [|t ts Ht _ IH]; simpl; [reflexivity|].
  apply Qle_bool_iff in Ht. rewrite Ht. now f_equal.
Qed.

Lemma kept_drops (now t : Q) (times : list Q) :
  (t + 60 < now)%Q ->
  kept_restarts now (t :: times) = kept_restarts now times.
Proof.
  intros H. simpl. destruct (Qle_bool (now - 60) t) eqn:B; [|reflexivity].
  apply Qle_bool_iff in B. lra.
Qed.

Lemma kept_length (now : Q) (times : list Q) :
  (List.length (kept_restarts now times) <= List.length times)%nat.
Proof. apply filter_length_le. Qed.

Lemma kept_within (now : Q) (times : list Q) :
  Forall (fun t => (now - 60 <= t)%Q) (kept_restarts now times).
Proof.
  apply Forall_forall. intros t H. apply filter_In in H.
  now apply Qle_bool_iff.
Qed.

Lemma crash_has_crashed (code : Z) (s : St) :
  code <> 0%Z ->
  ProcessAdapter.is_running (proc (self s)) = true \/ has_crashed s ->
  has_crashed (crash code s) /\
  cfg (self (crash code s)) = cfg (self s) /\
  _restart_times (self (crash code s)) = _restart_times (self s) /\
  world (crash code s) = world s.
Proof.
  intros Hc H. unfold crash, has_crashed, ProcessAdapter.exited. simpl.
  destruct H as [R|[R [c [C Hne]]]]; rewrite R; simpl.
  - split; [|auto]. split; [reflexivity|]. exists code. auto.
  - split; [|auto]. split; [exact R|]. exists c. auto.
Qed.

(** A detection that is allowed to restart. *)
Lemma tick_allowed (E : Env) (s : St) :
  has_crashed s ->
  ServerConfig.restart_policy (cfg (self s)) <> "never" ->
  let n := steps (world s) in
  let kept := kept_restarts (clock E (1 + n)) (_restart_times (self s)) in
  (Z.of_nat (List.length kept)
   < ServerConfig.max_restart_per_minute (cfg (self s)))%Z ->
  let s' := snd (tick_supervisor E s) in
  exists (evs : list Event.t) (k : nat),
    event_q (world s') = (event_q (world s) ++ evs)%list /\
    count_start_attempts "auto_restart" evs = 1%nat /\
    count_type "warn" evs = 0%nat /\
    count_type "crash" evs = 1%nat /\
    _restart_times (self s') = (kept ++ [clock E (2 + n)])%list /\
    steps (world s') = (n + k)%nat /\ (5 <= k <= 6)%nat /\
    cfg (self s') = cfg (self s) /\
    (ProcessAdapter.is_running (proc (self s')) = true \/ has_crashed s').
Proof.
  intros [R [c [C Hc]]] Hp n kept Hlt s'. subst s'.
  rewrite (tick_crash_eq E s c R C Hc). cbv zeta.
  rewrite (eqb_never _ Hp). fold n. fold kept.
  apply Z.ltb_lt in Hlt. rewrite Hlt.
  rewrite start_not_running_eq by exact R. cbv zeta.
  destruct (spawn_ok E _); simpl.
  - eexists. exists 6%nat. rewrite <- app_assoc. simpl.
    split; [reflexivity|]. repeat split; try reflexivity; try lia.
    now left.
  - eexists. exists 5%nat. rewrite <- app_assoc. simpl.
    split; [reflexivity|]. repeat split; try reflexivity; try lia.
    right. split; [exact R|]. exists c. auto.
Qed.

(** A detection that the rate limit turns down. *)
Lemma tick_limited (E : Env) (s : St) :
  has_crashed s ->
  ServerConfig.restart_policy (cfg (self s)) <> "never" ->
  let n := steps (world s) in
  let kept := kept_restarts (clock E (1 + n)) (_restart_times (self s)) in
  (ServerConfig.max_restart_per_minute (cfg (self s))
   <= Z.of_nat (List.length kept))%Z ->
  let s' := snd (tick_supervisor E s) in
  exists evs : list Event.t,
    event_q (world s') = (event_q (world s) ++ evs)%list /\
    count_start_attempts "auto_restart" evs = 0%nat /\
    count_type "warn" evs = 1%nat /\
    count_type "crash" evs = 1%nat /\
    _restart_times (self s') = kept /\
    spawned (world s') = spawned (world s).
Proof.
  intros [R [c [C Hc]]] Hp n kept Hge s'. subst s'.
  rewrite (tick_crash_eq E s c R C Hc). cbv zeta.
  rewrite (eqb_never _ Hp). fold n. fold kept.
  apply Z.ltb_ge in Hge. rewrite Hge. simpl.
  eexists. rewrite <- app_assoc. simpl.
  split; [reflexivity|]. repeat split; reflexivity.
Qed.

Lemma window_keeps (E : Env) (n0 n : nat) (times : list Q) :
  one_window E n0 (n0 + 21) ->
  (1 + n < n0 + 21)%nat ->
  Forall (fun t => exists j : nat, (n0 <= j < n)%nat /\ t = clock E j) times ->
  kept_restarts (clock E (1 + n)) times = times.
Proof.
  intros W Hn H. apply kept_all.
  eapply Forall_impl; [|exact H]. simpl.
  intros t [j [[Hj1 Hj2] ->]]. apply W; lia.
Qed.

Lemma detect_counted (E : Env) (n0 : nat) (q0 : list Event.t)
  (c0 : ServerConfig.t) (i : nat) (code : Z) (s : St) :
  ServerConfig.max_restart_per_minute c0 = 3%Z ->
  ServerConfig.restart_policy c0 <> "never" ->
  one_window E n0 (n0 + 21) ->
  code <> 0%Z ->
  (i < 3)%nat ->
  counted E n0 q0 c0 i s ->
  counted E n0 q0 c0 (S i) (detect E code s).
Proof.
  intros Hmax Hpol W Hcode Hi [Hcfg [Hproc [Hlen [Hall [Hsteps Hev]]]]].
  destruct Hev as [evs [Hq [Ha [Hw Hc]]]].
  destruct (crash_has_crashed code s Hcode Hproc) as [HC [Hcfg' [Hrt' Hw']]].
  unfold detect.
  assert (Hkept : kept_restarts (clock E (1 + steps (world (crash code s))))
                    (_restart_times (self (crash code s)))
                  = _restart_times (self s)).
  { rewrite Hrt', Hw'. apply (window_keeps E n0); [exact W | lia | exact Hall]. }
  pose proof (tick_allowed E (crash code s) HC) as T. cbv zeta in T.
  rewrite Hkept, Hcfg', Hcfg, Hmax, Hlen, Hw' in T.
  specialize (T Hpol ltac:(lia)).
  destruct T as [evs' [k [Tq [Ta [Tw [Tc [Trt [Tst [Tk [Tcfg Tproc]]]]]]]]]].
  unfold counted. rewrite Tcfg, Trt, Tst, Tq, Hq.
  split; [reflexivity|]. split; [exact Tproc|].
  split; [rewrite length_app; simpl; lia|].
  split.
  - apply Forall_app. split.
    + eapply Forall_impl; [|exact Hall]. simpl.
      intros t [j [Hj ->]]. exists j. split; [lia | reflexivity].
    + constructor; [|constructor].
      exists (2 + steps (world s))%nat. split; [lia | reflexivity].
  - split; [lia|].
    exists (evs ++ evs')%list. rewrite <- app_assoc.
    split; [reflexivity|].
    rewrite count_start_attempts_app, !count_type_app. lia.
Qed.

Lemma counted_start (E : Env) (s0 : St) :
  ProcessAdapter.is_running (proc (self s0)) = true ->
  _restart_times (self s0) = [] ->
  counted E (steps (world s0)) (event_q (world s0)) (cfg (self s0)) 0 s0.
Proof.
  intros R Hrt. unfold counted. rewrite Hrt.
  repeat split; auto; try lia.
  exists []. rewrite app_nil_r. repeat split.
Qed.

(** C2.  With [max_restart_per_minute] 3 and a policy other than ["never"],
    four detections of a non-zero exit whose clock readings all lie in one
    window of 60 seconds add four [crash] events, three start attempts for
    the reason ["auto_restart"] and one rate-limit [warn]; and when the
    clock read by a later detection is more than 60 seconds past the first
    counted restart time, that time is dropped and the server is started
    again, with no warning. *)
Theorem restart_rate_limit :
  (forall (E : Env) (s0 : St) (c1 c2 c3 c4 : Z),
      ServerConfig.max_restart_per_minute (cfg (self s0)) = 3%Z ->
      ServerConfig.restart_policy (cfg (self s0)) <> "never" ->
      ProcessAdapter.is_running (proc (self s0)) = true ->
      _restart_times (self s0) = [] ->
      c1 <> 0%Z -> c2 <> 0%Z -> c3 <> 0%Z -> c4 <> 0%Z ->
      one_window E (steps (world s0)) (steps (world s0) + 21) ->
      let s4 := detect E c4 (detect E c3 (detect E c2 (detect E c1 s0))) in
      exists evs : list Event.t,
        event_q (world s4) = (event_q (world s0) ++ evs)%list /\
        count_type "crash" evs = 4%nat /\
        count_start_attempts "auto_restart" evs = 3%nat /\
        count_type "warn" evs = 1%nat /\
        List.length (_restart_times (self s4)) = 3%nat) /\
  (forall (E : Env) (s : St) (t1 : Q) (rest : list Q),
      has_crashed s ->
      ServerConfig.max_restart_per_minute (cfg (self s)) = 3%Z ->
      ServerConfig.restart_policy (cfg (self s)) <> "never" ->
      _restart_times (self s) = t1 :: rest ->
      (List.length rest <= 2)%nat ->
      (t1 + 60 < clock E (1 + steps (world s)))%Q ->
      let now := clock E (1 + steps (world s)) in
      let s' := snd (tick_supervisor E s) in
      kept_restarts now (t1 :: rest) = kept_restarts now rest /\
      _restart_times (self s') =
        (kept_restarts now rest ++ [clock E (2 + steps (world s))])%list /\
      exists evs : list Event.t,
        event_q (world s') = (event_q (world s) ++ evs)%list /\
        count_start_attempts "auto_restart" evs = 1%nat /\
        count_type "warn" evs = 0%nat).
Proof.
  split.
  - intros E s0 c1 c2 c3 c4 Hmax Hpol R Hrt H1 H2 H3 H4 W s4.
    pose proof (counted_start E s0 R Hrt) as I0.
    pose proof (detect_counted E _ _ _ 0 c1 s0 Hmax Hpol W H1 ltac:(lia) I0)
      as I1.
    pose proof (detect_counted E _ _ _ 1 c2 _ Hmax Hpol W H2 ltac:(lia) I1)
      as I2.
    pose proof (detect_counted E _ _ _ 2 c3 _ Hmax Hpol W H3 ltac:(lia) I2)
      as I3.
    set (s3 := detect E c3 (detect E c2 (detect E c1 s0))) in *.
    destruct I3 as [Hcfg [Hproc [Hlen [Hall [Hsteps Hev]]]]].
    destruct Hev as [evs [Hq [Ha [Hw Hc]]]].
    destruct (crash_has_crashed c4 s3 H4 Hproc) as [HC [Hcfg' [Hrt' Hw']]].
    assert (Hkept : kept_restarts (clock E (1 + steps (world (crash c4 s3))))
                      (_restart_times (self (crash c4 s3)))
                    = _restart_times (self s3)).
    { rewrite Hrt', Hw'.
      apply (window_keeps E (steps (world s0))); [exact W | lia | exact Hall]. }
    pose proof (tick_limited E (crash c4 s3) HC) as T. cbv zeta in T.
    rewrite Hkept, Hcfg', Hcfg, Hmax, Hlen, Hw' in T.
    specialize (T Hpol ltac:(lia)).
    destruct T as [evs' [Tq [Ta [Tw [Tc [Trt _]]]]]].
    subst s4. fold s3.
    change (detect E c4 s3) with (snd (tick_supervisor E (crash c4 s3))).
    exists (evs ++ evs')%list. rewrite Tq, Hq, <- app_assoc, Trt.
    split; [reflexivity|].
    rewrite count_start_attempts_app, !count_type_app. lia.
  - intros E s t1 rest HC Hmax Hpol Hrt Hlen Hold now s'.
    assert (Hdrop : kept_restarts now (t1 :: rest) = kept_restarts now rest)
      by (apply kept_drops; exact Hold).
    split; [exact Hdrop|].
    pose proof (tick_allowed E s HC Hpol) as T. cbv zeta in T.
    fold now in T. rewrite Hrt, Hdrop, Hmax in T.
    pose proof (kept_length now rest) as Hk.
    specialize (T ltac:(lia)).
    destruct T as [evs [k [Tq [Ta [Tw [_ [Trt _]]]]]]].
    split; [exact Trt|]. exists evs. auto.
Qed.

(** At exactly 60 seconds a restart time is still counted. *)
Lemma kept_at_sixty (t : Q) (times : list Q) :
  kept_restarts (t + 60) (t :: times) = t :: kept_restarts (t + 60) times.
Proof.
  simpl. replace (Qle_bool (t + 60 - 60) t) with true; [reflexivity|].
  symmetry. apply Qle_bool_iff. lra.
Qed.

(** ** The theorems at sample inputs *)

Lemma env_fine_window (n0 : nat) : one_window env_fine n0 (n0 + 21).
Proof.
  intros i j H1 H2 H3. simpl. unfold clock_index.
  unfold Qle, Qminus, Qplus, Qopp, inject_Z. simpl. lia.
Qed.

Lemma restart_rate_limit_witness :
  (exists evs : list Event.t,
      event_q (world (detect env_fine 1 (detect env_fine 1
                        (detect env_fine 1 (detect env_fine 1
                           started_limited))))) =
        (event_q (world started_limited) ++ evs)%list /\
      count_type "crash" evs = 4%nat /\
      count_start_attempts "auto_restart" evs = 3%nat /\
      count_type "warn" evs = 1%nat /\
      List.length (_restart_times (self
        (detect env_fine 1 (detect env_fine 1
           (detect env_fine 1 (detect env_fine 1 started_limited)))))) = 3%nat) /\
  _restart_times (self (snd (tick_supervisor env_fine crashed_later))) =
    (kept_restarts (clock env_fine 101) [1%Q; 2%Q] ++ [clock env_fine 102])%list.
Proof.
  split.
  - apply (proj1 restart_rate_limit env_fine started_limited 1 1 1 1)%Z;
      try reflexivity; try discriminate.
    exact (env_fine_window 3).
  - apply (proj2 restart_rate_limit env_fine crashed_later 0%Q [1%Q; 2%Q]).
    + split; [reflexivity|]. exists 1%Z. split; [reflexivity | discriminate].
    + reflexivity.
    + discriminate.
    + reflexivity.
    + simpl. lia.
    + reflexivity.
Defined.

Lemma crash_then_restart_witness :
  map status_of (trace env_fine "" (repeat RunTick 7)
                       (tick_only (crash 1 (started env_fine cfg_always
                                                    world0 "boot")))) =
  [ServerStatus.crashed; ServerStatus.crashed; ServerStatus.crashed;
   ServerStatus.starting; ServerStatus.starting;
   ServerStatus.running; ServerStatus.running].
Proof.
  apply (crash_then_restart env_fine cfg_always world0 "boot"
           eq_refl eq_refl eq_refl eq_refl).
Defined.

Lemma start_running_noop_witness :
  ProcessAdapter.is_running (proc (self started_a)) = true /\
  start "api" env_fine started_a = (Ok tt, started_a).
Proof.
  split; [reflexivity|].
  apply (proj1 (start_running_noop env_fine "api" started_a)). reflexivity.
Defined.

Lemma health_event_iff_change_witness :
  health_of (probes_and env_fine (health_evals 1 env_fine started_a)) =
    health_of (probes_and env_fine (health_evals 0 env_fine started_a)) /\
  event_q (world (health_evals 2 env_fine started_a)) =
    event_q (world (health_evals 1 env_fine started_a)).
Proof.
  split; [reflexivity|].
  apply (health_event_iff_change env_fine started_a 0). reflexivity.
Defined.

Lemma restart_policy_only_never_witness :
  fst (tick_supervisor env_fine (policy_st "on-failure" crashed_a)) =
    fst (tick_supervisor env_fine (policy_st "always" crashed_a)) /\
  snd (tick_supervisor env_fine (policy_st "on-failure" crashed_a)) =
    policy_st "on-failure"
      (snd (tick_supervisor env_fine (policy_st "always" crashed_a))).
Proof.
  apply (proj1 (restart_policy_only_never env_fine crashed_a)
               "always" "on-failure"); discriminate.
Defined.

Lemma do_action_errors_witness :
  dict_get (PolarManager.servers (PolarManager.self manager_two)) "b" <> None /\
  PolarManager.do_action "b" "pause" "api" env_fine manager_two =
    (Exc (ValueError "unknown action"), manager_two).
Proof.
  split; [discriminate|].
  apply (proj2 (proj2 (do_action_errors env_fine "b" "pause" "api"
                         manager_two))); discriminate.
Defined.

(** * Further properties of the code *)

(** ** The process adapter *)

(** [ProcessAdapter.start] on an adapter whose process is alive raises
    [RuntimeError] and changes neither the adapter nor the world: no process
    is created and the environment is not even asked. *)
Theorem adapter_start_refuses_running :
  forall (E : Env) (cmd : list string) (workdir : string) (env : dict string)
         (p : ProcessAdapter.t) (w : World),
    ProcessAdapter.is_running p = true ->
    ProcessAdapter.start cmd workdir env E (p, w) =
      (Exc (RuntimeError "process already running"), (p, w)).
Proof.
  intros E cmd wd env p w H.
  unfold ProcessAdapter.start, bind, gets. simpl. rewrite H. reflexivity.
Qed.

Lemma adapter_start_refuses_running_witness :
  ProcessAdapter.is_running live = true /\
  ProcessAdapter.start ["run-a"] "/srv/a" [] env_fine (live, world0) =
    (Exc (RuntimeError "process already running"), (live, world0)).
Proof.
  split; [reflexivity|].
  apply (adapter_start_refuses_running env_fine ["run-a"] "/srv/a" [] live
           world0).
  reflexivity.
Defined.

(** [ProcessAdapter.stop] never raises and leaves no process alive; on an
    adapter without a live process it changes nothing, so a second [stop]
    changes nothing; a live process is left with the return code the
    environment gives it, which [exit_code] then reports. *)
Theorem adapter_stop_idempotent :
  forall (E : Env) (p : ProcessAdapter.t) (w : World),
    let r := ProcessAdapter.stop E (p, w) in
    fst r = Ok tt /\
    ProcessAdapter.is_running (fst (snd r)) = false /\
    ProcessAdapter.stop E (snd r) = (Ok tt, snd r) /\
    (ProcessAdapter.is_running p = false -> snd r = (p, w)) /\
    (ProcessAdapter.is_running p = true ->
     ProcessAdapter.exit_code (fst (snd r)) = Some (term_code E (steps w)) /\
     snd (snd r) = mkWorld (S (steps w)) (event_q w) (spawned w)).
Proof.
  intros E p w r. subst r.
  unfold ProcessAdapter.stop, ProcessAdapter.in_world, ProcessAdapter.exited,
    zoom, interact, bind, gets, modify, ret.
  simpl. destruct (ProcessAdapter.is_running p) eqn:R; simpl.
  - rewrite R. simpl. repeat split; try reflexivity; discriminate.
  - rewrite R. simpl. repeat split; try reflexivity; discriminate.
Qed.

Lemma adapter_stop_idempotent_witness :
  ProcessAdapter.is_running live = true /\
  ProcessAdapter.exit_code (fst (snd (ProcessAdapter.stop env_fine
                                        (live, world0)))) = Some (-15)%Z.
Proof.
  split; [reflexivity|].
  apply (adapter_stop_idempotent env_fine live world0). reflexivity.
Defined.

(** ** Stopping and starting a server *)

(** [ManagedServer.stop] never raises; it leaves the status stopped and no
    process alive, creates no process, and the last event it appends is the
    [status] event that says stopped, with the reason given.  A [stop] that
    follows it leaves the server as it is and appends that one event
    again. *)
Theorem stop_leaves_stopped :
  forall (E : Env) (reason reason' : string) (s : St),
    let s1 := snd (stop reason E s) in
    fst (stop reason E s) = Ok tt /\
    status (self s1) = ServerStatus.stopped /\
    ProcessAdapter.is_running (proc (self s1)) = false /\
    spawned (world s1) = spawned (world s) /\
    (exists (evs : list Event.t) (n : nat),
        event_q (world s1) =
          (event_q (world s) ++ evs ++
           [event_at E n (self s) "status"
                     (status_data ServerStatus.stopped reason)])%list) /\
    stop reason' E s1 =
      (Ok tt,
       mkSt (self s1)
            (mkWorld (1 + steps (world s1))
                     (event_q (world s1) ++
                      [event_at E (steps (world s1)) (self s1) "status"
                                (status_data ServerStatus.stopped reason')])
                     (spawned (world s1)))).
Proof.
  intros E reason reason' s s1.
  assert (Hs1 : fst (stop reason E s) = Ok tt /\
                status (self s1) = ServerStatus.stopped /\
                ProcessAdapter.is_running (proc (self s1)) = false /\
                spawned (world s1) = spawned (world s) /\
                exists (evs : list Event.t) (n : nat),
                  event_q (world s1) =
                    (event_q (world s) ++ evs ++
                     [event_at E n (self s) "status"
                               (status_data ServerStatus.stopped reason)])%list).
  { subst s1.
    destruct (ProcessAdapter.is_running (proc (self s))) eqn:R.
    - rewrite stop_running_eq by exact R. cbv zeta. simpl.
      unfold ProcessAdapter.exited. rewrite R. simpl.
      repeat split. eexists. eexists.
      change (?a :: ?l ++ ?b)%list with ((a :: l) ++ b)%list. reflexivity.
    - rewrite stop_not_running_eq by exact R. simpl.
      repeat split; try exact R. exists [], (steps (world s)). reflexivity. }
  destruct Hs1 as [H1 [H2 [H3 [H4 H5]]]].
  repeat split; try assumption.
  rewrite (stop_not_running_eq E reason' s1 H3).
  destruct s1 as [[c p st h rt] w]. simpl in *. subst st. reflexivity.
Qed.

(** A server whose process was never started and whose spawn fails: [start]
    raises the error of the spawn, the status stays at starting with one
    [status] event in the queue and no process, and no later
    [tick_supervisor] changes anything, so the status remains starting until
    somebody acts on the server. *)
Theorem failed_first_start_stays_starting :
  forall (E : Env) (reason : string) (s : St) (k : nat),
    ProcessAdapter.proc (proc (self s)) = None ->
    spawn_ok E (1 + steps (world s)) = false ->
    let s1 := snd (start reason E s) in
    fst (start reason E s) = Exc OSError /\
    status (self s1) = ServerStatus.starting /\
    ProcessAdapter.proc (proc (self s1)) = None /\
    event_q (world s1) =
      (event_q (world s) ++
       [event_at E (steps (world s)) (self s) "status"
                 (status_data ServerStatus.starting reason)])%list /\
    spawned (world s1) = spawned (world s) /\
    ticks k E s1 = s1.
Proof.
  intros E reason s k Hnone Hfail s1.
  assert (R : ProcessAdapter.is_running (proc (self s)) = false).
  { unfold ProcessAdapter.is_running. now rewrite Hnone. }
  assert (Hs1 : start reason E s =
    (Exc OSError,
     mkSt (set_status ServerStatus.starting (self s))
          (mkWorld (2 + steps (world s))
             (event_q (world s) ++
              [event_at E (steps (world s)) (self s) "status"
                        (status_data ServerStatus.starting reason)])
             (spawned (world s))))).
  { rewrite start_not_running_eq by exact R. cbv zeta. now rewrite Hfail. }
  subst s1. rewrite Hs1. simpl.
  repeat split; try assumption.
  induction k as [|k IH]; simpl; [reflexivity|].
  rewrite IH. rewrite tick_no_code_eq; [reflexivity | exact R |].
  simpl. unfold ProcessAdapter.exit_code. now rewrite Hnone.
Qed.

Lemma failed_first_start_stays_starting_witness :
  status (self (snd (start "boot" env_first_spawn_fails
                           (mkSt (ManagedServer.init cfg_a) world0)))) =
    ServerStatus.starting /\
  ticks 3 env_first_spawn_fails
        (snd (start "boot" env_first_spawn_fails
                    (mkSt (ManagedServer.init cfg_a) world0))) =
  snd (start "boot" env_first_spawn_fails
             (mkSt (ManagedServer.init cfg_a) world0)).
Proof.
  pose proof (failed_first_start_stays_starting env_first_spawn_fails "boot"
                (mkSt (ManagedServer.init cfg_a) world0) 3 eq_refl eq_refl)
    as H.
  cbv zeta in H. split; [apply H|]. apply H.
Defined.

(** A crashed server that is not restarted is reported again by every tick:
    under the policy ["never"], [k] calls of [tick_supervisor] append [k]
    [crash] events and nothing else, and leave the restart window, the
    process and the spawned processes as they were. *)
Theorem crash_reported_every_tick :
  forall (E : Env) (s : St) (c : Z) (k : nat),
    ProcessAdapter.is_running (proc (self s)) = false ->
    ProcessAdapter.exit_code (proc (self s)) = Some c ->
    c <> 0%Z ->
    ServerConfig.restart_policy (cfg (self s)) = "never" ->
    exists evs : list Event.t,
      event_q (world (ticks k E s)) = (event_q (world s) ++ evs)%list /\
      List.length evs = k /\
      count_type "crash" evs = k /\
      proc (self (ticks k E s)) = proc (self s) /\
      _restart_times (self (ticks k E s)) = _restart_times (self s) /\
      spawned (world (ticks k E s)) = spawned (world s) /\
      cfg (self (ticks k E s)) = cfg (self s).
Proof.
  intros E s c k R C Hc Hp.
  induction k as [|k IH]; simpl.
  - exists []. rewrite app_nil_r. repeat split.
  - destruct IH as [evs [Hq [Hlen [Hcount [Hproc [Hrt [Hsp Hcfg]]]]]]].
    rewrite (tick_crash_eq E (ticks k E s) c);
      [| rewrite Hproc; exact R | rewrite Hproc; exact C | exact Hc].
    cbv zeta. rewrite Hcfg, Hp. simpl.
    eexists. rewrite Hq, <- app_assoc. split; [reflexivity|].
    split; [rewrite length_app, Hlen; simpl; lia|].
    split; [rewrite count_type_app, Hcount; unfold count_type; simpl; lia|].
    repeat split; assumption.
Qed.

Lemma crash_reported_every_tick_witness :
  exists evs : list Event.t,
    event_q (world (ticks 3 env_fine (policy_st "never" crashed_a))) =
      (event_q (world (policy_st "never" crashed_a)) ++ evs)%list /\
    List.length evs = 3%nat /\
    count_type "crash" evs = 3%nat.
Proof.
  destruct (crash_reported_every_tick env_fine (policy_st "never" crashed_a)
              1%Z 3 eq_refl eq_refl ltac:(discriminate) eq_refl)
    as [evs [H1 [H2 [H3 _]]]].
  exists evs. auto.
Defined.

(** A requested stop may be undone by the next tick.  When the process of a
    running server returns a non-zero code on being terminated, [stop]
    leaves the status stopped, and the next [tick_supervisor], under a policy
    other than ["never"] and within the rate limit, takes the return code
    for a crash: it appends a [crash] event and starts the server again.
    When the process returns 0 the tick leaves the server stopped and
    appends nothing. *)
Theorem stop_then_tick_restarts :
  forall (E : Env) (reason : string) (s : St),
    ProcessAdapter.is_running (proc (self s)) = true ->
    let s1 := snd (stop reason E s) in
    let n := steps (world s1) in
    status (self s1) = ServerStatus.stopped /\
    (exists k : nat,
        ProcessAdapter.exit_code (proc (self s1)) = Some (term_code E k)) /\
    (ProcessAdapter.exit_code (proc (self s1)) = Some 0%Z ->
     tick_supervisor E s1 = (Ok tt, s1)) /\
    (forall c : Z,
        ProcessAdapter.exit_code (proc (self s1)) = Some c ->
        c <> 0%Z ->
        ServerConfig.restart_policy (cfg (self s)) <> "never" ->
        (Z.of_nat (List.length (kept_restarts (clock E (1 + n))
                                              (_restart_times (self s))))
         < ServerConfig.max_restart_per_minute (cfg (self s)))%Z ->
        spawn_ok E (4 + n) = true ->
        let s2 := snd (tick_supervisor E s1) in
        fst (tick_supervisor E s1) = Ok tt /\
        status (self s2) = ServerStatus.running /\
        ProcessAdapter.is_running (proc (self s2)) = true /\
        event_q (world s2) =
          (event_q (world s1) ++
           [event_at E n (self s) "crash" [("exit_code", VInt c)];
            event_at E (3 + n) (self s) "status"
                     (status_data ServerStatus.starting "auto_restart");
            event_at E (5 + n) (self s) "status"
                     (status_data ServerStatus.running "auto_restart")])%list /\
        spawned (world s2) = (spawned (world s) ++ [spawn_of E (self s)])%list).
Proof.
  intros E reason s R s1 n.
  pose proof (stop_running_eq E reason s R) as Hstop. cbv zeta in Hstop.
  set (info := if truthy_list (ServerConfig.stop_cmd (cfg (self s)))
               then [event_at E (1 + steps (world s)) (self s) "info"
                              [("msg", VStr "stop_cmd not implemented yet")]]
               else []) in *.
  set (k := (1 + List.length info + steps (world s))%nat) in *.
  assert (Hp : proc (self s1) =
               ProcessAdapter.mk (Some (Process.mk (Some (term_code E k))))).
  { subst s1. rewrite Hstop. simpl. unfold ProcessAdapter.exited.
    now rewrite R. }
  assert (Hcfg : cfg (self s1) = cfg (self s))
    by (subst s1; rewrite Hstop; reflexivity).
  assert (Hrt : _restart_times (self s1) = _restart_times (self s))
    by (subst s1; rewrite Hstop; reflexivity).
  assert (Hst : status (self s1) = ServerStatus.stopped)
    by (subst s1; rewrite Hstop; reflexivity).
  assert (Hsp : spawned (world s1) = spawned (world s))
    by (subst s1; rewrite Hstop; reflexivity).
  assert (R1 : ProcessAdapter.is_running (proc (self s1)) = false)
    by (rewrite Hp; reflexivity).
  clearbody s1. clear Hstop.
  split; [exact Hst|]. split; [exists k; rewrite Hp; reflexivity|]. split.
  - intros C0. rewrite (tick_exit_zero_eq E s1 R1 C0).
    destruct s1 as [[c p st h rt] w]. simpl in *. now subst st.
  - intros c C Hc Hpol Hlim Hspawn s2.
    assert (Htick : tick_supervisor E s1 =
      (Ok tt,
       mkSt (set_status ServerStatus.running
               (set_proc live
                  (set_restart_times
                     (kept_restarts (clock E (1 + n))
                                    (_restart_times (self s)) ++
                      [clock E (2 + n)])
                     (set_status ServerStatus.crashed (self s1)))))
            (mkWorld (6 + n)
               (event_q (world s1) ++
                [event_at E n (self s1) "crash" [("exit_code", VInt c)];
                 event_at E (3 + n) (self s1) "status"
                          (status_data ServerStatus.starting "auto_restart");
                 event_at E (5 + n) (self s1) "status"
                          (status_data ServerStatus.running "auto_restart")])
               (spawned (world s1) ++ [spawn_of E (self s1)])))).
    { rewrite (tick_crash_eq E s1 c R1 C Hc). cbv zeta.
      rewrite Hcfg, (eqb_never _ Hpol), Hrt. fold n.
      apply Z.ltb_lt in Hlim. rewrite Hlim.
      rewrite start_not_running_eq by exact R1. cbv zeta. simpl steps.
      match goal with
      | |- context [spawn_ok E ?i] =>
          change (spawn_ok E i) with (spawn_ok E (4 + n))
      end.
      rewrite Hspawn. simpl. rewrite <- app_assoc. reflexivity. }
    subst s2. rewrite Htick. simpl.
    unfold event_at, spawn_of. rewrite Hcfg, Hsp. repeat split.
Qed.

Lemma stop_then_tick_restarts_witness :
  ProcessAdapter.is_running (proc (self started_a)) = true /\
  status (self (snd (stop "api" env_fine started_a))) = ServerStatus.stopped /\
  status (self (snd (tick_supervisor env_fine
                       (snd (stop "api" env_fine started_a))))) =
    ServerStatus.running.
Proof.
  split; [reflexivity|].
  pose proof (stop_then_tick_restarts env_fine "api" started_a eq_refl) as H.
  cbv zeta in H. destruct H as [H1 [_ [_ H4]]].
  split; [exact H1|].
  apply (H4 (-15)%Z); try reflexivity; discriminate.
Defined.

(** ** The lock and the process in the race *)

Transparent reachable reachable_any reachable_live.

Lemma reachable_lock :
  forallb (fun v =>
             Bool.eqb (v_lock v)
                      (view_holds (v_stopper v) || view_holds (v_ticker v)) &&
             negb (view_holds (v_stopper v) && view_holds (v_ticker v)))
          (reachable false) = true.
Proof. vm_compute. reflexivity. Qed.

Lemma reachable_spawn_dead :
  forallb (fun v =>
             match v_ticker v with
             | Some StartSpawn | Some StartSpawned => negb (v_running v)
             | _ => true
             end)
          (reachable false) = true.
Proof. vm_compute. reflexivity. Qed.

Lemma reachable_moves :
  forallb (fun v =>
             (view_finished (v_stopper v) && view_finished (v_ticker v)) ||
             view_can_move v)
          (reachable false) = true.
Proof. vm_compute. reflexivity. Qed.

Lemma reachable_stop_returns :
  forallb (fun v => match v_stopper v with
                    | Some _ => true
                    | None => false
                    end)
          (reachable false) = true.
Proof. vm_compute. reflexivity. Qed.

Lemma reachable_descends :
  forallb (fun v => forallb (fun v' => Nat.ltb (steps_left v') (steps_left v))
                            (view_next false v))
          (reachable false) = true.
Proof. vm_compute. reflexivity. Qed.

Opaque reachable reachable_any reachable_live.

Lemma view_holds_thread (t : thread) :
  view_holds (view_thread t) = thread_holds t.
Proof. destruct t; reflexivity. Qed.

(** At every point of every interleaving of [stop] with [tick_supervisor]
    the lock is held exactly when one of the two coroutines is inside its
    [async with self._lock] block, and never by both: the locked parts of
    [stop] and of the [start] called by the tick exclude each other. *)
Theorem lock_excludes :
  forall (E : Env) (reason : string) (sched : list label) (s : St)
         (c : Config),
    run E reason sched (initial s) = Some c ->
    lock c = (thread_holds (stopper c) || thread_holds (ticker c)) /\
    (thread_holds (stopper c) && thread_holds (ticker c)) = false.
Proof.
  intros E reason sched s c Hrun.
  pose proof (run_reachable E reason sched _ _
                (initial_reachable false s) Hrun) as Hin.
  pose proof (proj1 (forallb_forall _ _) reachable_lock _ Hin) as H.
  simpl in H. rewrite !view_holds_thread in H.
  apply andb_prop in H. destruct H as [H1 H2].
  split; [now apply Bool.eqb_prop | now apply negb_true_iff].
Qed.

Lemma lock_excludes_witness :
  exists c : Config,
    run env_fine "api" race_schedule (initial started_a) = Some c /\
    lock c = (thread_holds (stopper c) || thread_holds (ticker c)) /\
    (thread_holds (stopper c) && thread_holds (ticker c)) = false.
Proof.
  destruct (run env_fine "api" race_schedule (initial started_a))
    as [c|] eqn:Hrun; [|vm_compute in Hrun; discriminate].
  exists c. split; [reflexivity|].
  exact (lock_excludes env_fine "api" race_schedule started_a c Hrun).
Defined.

Lemma segment_raises (E : Env) (reason : string) (p : pc) (s s' : St)
  (e : exn) :
  segment reason p E s = (Exc e, s') ->
  (p = StartSpawn /\ ProcessAdapter.is_running (proc (self s)) = true) \/
  (p = StartSpawned /\ e = OSError).
Proof.
  destruct s as [[c [[[[z|]]|]] sts h rt] [n q sp]]; destruct p;
    unfold segment, stop_proc, stop_finish; unfold_monad; simpl;
    repeat (break_if; simpl); intros H; inversion H; subst; auto.
Qed.

Lemma step_tick_raises (E : Env) (reason : string) (l : label)
  (c c' : Config) (e : exn) :
  In (view c) (reachable false) ->
  (forall e0, ticker c = Raised e0 -> e0 = OSError) ->
  step E reason l c = Some c' ->
  ticker c' = Raised e -> e = OSError.
Proof.
  intros Hin Hc Hstep He.
  pose proof (proj1 (forallb_forall _ _) reachable_spawn_dead _ Hin) as Hd.
  destruct c as [s0 lk ts tt0 rs]. simpl in *.
  destruct l; unfold step in Hstep; simpl in Hstep.
  - destruct ts as [p|e0]; [|discriminate].
    destruct (enabled p s0 lk); [|discriminate].
    destruct (run_piece E reason p s0 lk) as [[t s1] l1].
    inversion Hstep; subst; simpl in *. now apply Hc.
  - destruct tt0 as [p|e0]; [|discriminate].
    destruct (enabled p s0 lk); [|discriminate].
    unfold run_piece in Hstep.
    destruct (segment tick_reason p E s0) as [[p'|e1] s1] eqn:Hseg;
      inversion Hstep; subst; simpl in *; [discriminate|].
    inversion He; subst.
    apply segment_raises in Hseg. destruct Hseg as [[-> Hr]|[_ ->]].
    + simpl in Hd. rewrite Hr in Hd. discriminate.
    + reflexivity.
  - destruct (ProcessAdapter.is_running _); [|discriminate].
    inversion Hstep; subst; simpl in *. now apply Hc.
Qed.

Lemma run_tick_raises (E : Env) (reason : string) (sched : list label) :
  forall (c c' : Config) (e : exn),
    In (view c) (reachable false) ->
    (forall e0, ticker c = Raised e0 -> e0 = OSError) ->
    run E reason sched c = Some c' ->
    ticker c' = Raised e -> e = OSError.
Proof.
  induction sched as [|l sched IH]; intros c c' e Hin Hc Hrun He;
    simpl in Hrun.
  - inversion Hrun; subst. now apply Hc.
  - destruct (step E reason l c) as [c1|] eqn:Hstep; [|discriminate].
    apply (IH c1 c' e); [| |exact Hrun|exact He].
    + apply (step_reachable E reason false l c c1 Hin Hstep). discriminate.
    + intros e0. exact (step_tick_raises E reason l c c1 e0 Hin Hc Hstep).
Qed.

(** In every interleaving of [stop] with [tick_supervisor], the [start]
    called by the tick asks for a new process only while no process of the
    server is alive, so the adapter never refuses it with "process already
    running"; [stop] raises nothing, and the tick raises nothing but the
    error of a spawn that failed. *)
Theorem race_spawns_when_dead :
  forall (E : Env) (reason : string) (sched : list label) (s : St)
         (c : Config),
    run E reason sched (initial s) = Some c ->
    (ticker c = At StartSpawn \/ ticker c = At StartSpawned ->
     ProcessAdapter.is_running (proc (self (st c))) = false) /\
    (forall e : exn, stopper c <> Raised e) /\
    (forall e : exn, ticker c = Raised e -> e = OSError).
Proof.
  intros E reason sched s c Hrun.
  pose proof (run_reachable E reason sched _ _
                (initial_reachable false s) Hrun) as Hin.
  split; [|split].
  - pose proof (proj1 (forallb_forall _ _) reachable_spawn_dead _ Hin) as H.
    simpl in H. intros [Ht|Ht]; rewrite Ht in H; simpl in H;
      now apply negb_true_iff in H.
  - pose proof (proj1 (forallb_forall _ _) reachable_stop_returns _ Hin) as H.
    simpl in H. intros e He. rewrite He in H. discriminate.
  - intros e He.
    assert (Hinit : forall e0, ticker (initial s) = Raised e0 -> e0 = OSError)
      by (simpl; discriminate).
    exact (run_tick_raises E reason sched (initial s) c e
             (initial_reachable false s) Hinit Hrun He).
Qed.

Lemma race_spawns_when_dead_witness :
  exists c : Config,
    run env_fine "api" race_schedule (initial started_a) = Some c /\
    forall e : exn, stopper c <> Raised e.
Proof.
  destruct (run env_fine "api" race_schedule (initial started_a))
    as [c|] eqn:Hrun; [|vm_compute in Hrun; discriminate].
  exists c. split; [reflexivity|].
  apply (race_spawns_when_dead env_fine "api" race_schedule started_a c Hrun).
Defined.

Lemma step_some_stop (E : Env) (reason : string) (c : Config) (p : pc) :
  stopper c = At p ->
  view_enabled p (ProcessAdapter.is_running (proc (self (st c)))) (lock c)
  = true ->
  exists c' : Config, step E reason RunStop c = Some c'.
Proof.
  intros Hp Hen. unfold step. rewrite Hp, enabled_view, Hen.
  destruct (run_piece E reason p (st c) (lock c)) as [[t s'] l'].
  eexists. reflexivity.
Qed.

Lemma step_some_tick (E : Env) (reason : string) (c : Config) (p : pc) :
  ticker c = At p ->
  view_enabled p (ProcessAdapter.is_running (proc (self (st c)))) (lock c)
  = true ->
  exists c' : Config, step E reason RunTick c = Some c'.
Proof.
  intros Hp Hen. unfold step. rewrite Hp, enabled_view, Hen.
  destruct (run_piece E tick_reason p (st c) (lock c)) as [[t s'] l'].
  eexists. reflexivity.
Qed.

(** The race of [stop] with [tick_supervisor] never gets stuck: at every
    point of every interleaving either both coroutines have ended, or one of
    them can run its next piece, or the process a [stop] waits for is alive
    and can end.  In particular the lock is never waited for in vain. *)
Theorem race_never_stuck :
  forall (E : Env) (reason : string) (sched : list label) (s : St)
         (c : Config),
    run E reason sched (initial s) = Some c ->
    (finished (stopper c) = true /\ finished (ticker c) = true) \/
    exists (l : label) (c' : Config), step E reason l c = Some c'.
Proof.
  intros E reason sched s c Hrun.
  pose proof (run_reachable E reason sched _ _
                (initial_reachable false s) Hrun) as Hin.
  pose proof (proj1 (forallb_forall _ _) reachable_moves _ Hin) as H.
  simpl in H. rewrite !finished_view in H.
  apply orb_prop in H. destruct H as [H|H].
  - left. now apply andb_prop in H.
  - right. unfold view_can_move in H. simpl in H.
    apply orb_prop in H. destruct H as [H|H];
      [apply orb_prop in H; destruct H as [H|H]|].
    + destruct (stopper c) as [p|e] eqn:Hp; simpl in H; [|discriminate].
      destruct (step_some_stop E reason c p Hp H) as [c' Hc'].
      now exists RunStop, c'.
    + destruct (ticker c) as [p|e] eqn:Hp; simpl in H; [|discriminate].
      destruct (step_some_tick E reason c p Hp H) as [c' Hc'].
      now exists RunTick, c'.
    + exists ProcExit. unfold step. rewrite H. eexists. reflexivity.
Qed.

Lemma run_bounded (E : Env) (reason : string) (sched : list label) :
  forall c c' : Config,
    In (view c) (reachable false) ->
    run E reason sched c = Some c' ->
    (List.length sched + steps_left (view c') <= steps_left (view c))%nat.
Proof.
  induction sched as [|l sched IH]; intros c c' Hin Hrun; simpl in Hrun.
  - inversion Hrun; subst. simpl. lia.
  - destruct (step E reason l c) as [c1|] eqn:Hstep; [|discriminate].
    assert (Hin1 : In (view c1) (reachable false)).
    { apply (step_reachable E reason false l c c1 Hin Hstep). discriminate. }
    pose proof (IH c1 c' Hin1 Hrun) as Hrest.
    assert (Hv : In (view c1) (view_next false (view c))).
    { pose proof (step_view E reason false l c c1 Hstep) as Hv.
      unfold view_next. rewrite !in_app_iff.
      destruct l; [left | right; left | right; right]; apply Hv;
        discriminate. }
    pose proof (proj1 (forallb_forall _ _) reachable_descends _ Hin) as Hd.
    pose proof (proj1 (forallb_forall _ _) Hd _ Hv) as Hlt.
    apply Nat.ltb_lt in Hlt. simpl. lia.
Qed.

(** The race ends: no interleaving of [stop] with [tick_supervisor] and the
    ends of the process has more than 15 steps. *)
Theorem race_ends :
  forall (E : Env) (reason : string) (sched : list label) (s : St)
         (c : Config),
    run E reason sched (initial s) = Some c ->
    (List.length sched <= 15)%nat.
Proof.
  intros E reason sched s c Hrun.
  pose proof (run_bounded E reason sched _ _ (initial_reachable false s) Hrun)
    as H.
  assert (Hinit : (steps_left (view (initial s)) <= 15)%nat).
  { unfold steps_left, view, initial. simpl.
    destruct (ProcessAdapter.is_running _); simpl; lia. }
  lia.
Qed.

Lemma race_ends_witness :
  exists c : Config,
    run env_fine "api" race_schedule (initial started_a) = Some c /\
    (List.length race_schedule <= 15)%nat.
Proof.
  destruct (run env_fine "api" race_schedule (initial started_a))
    as [c|] eqn:Hrun; [|vm_compute in Hrun; discriminate].
  exists c. split; [reflexivity|].
  exact (race_ends env_fine "api" race_schedule started_a c Hrun).
Defined.

Lemma race_never_stuck_witness :
  exists c : Config,
    run env_fine "api" [RunStop; RunStop; RunStop] (initial started_a)
    = Some c /\
    ((finished (stopper c) = true /\ finished (ticker c) = true) \/
     exists (l : label) (c' : Config), step env_fine "api" l c = Some c').
Proof.
  destruct (run env_fine "api" [RunStop; RunStop; RunStop] (initial started_a))
    as [c|] eqn:Hrun; [|vm_compute in Hrun; discriminate].
  exists c. split; [reflexivity|].
  exact (race_never_stuck env_fine "api" _ started_a c Hrun).
Defined.

(** ** The restart window *)

(** [_allow_restart] never raises and emits nothing; it keeps, in their
    order, exactly the restart times that are at most 60 seconds older than
    the clock it reads, so every time it leaves in the window lies within the
    trailing 60 seconds; it answers yes exactly when fewer than
    [max_restart_per_minute] times are left, hence never when that bound is
    zero or negative. *)
Theorem allow_restart_window :
  forall (E : Env) (s : St),
    let now := clock E (steps (world s)) in
    let kept := kept_restarts now (_restart_times (self s)) in
    _allow_restart E s =
      (Ok (Z.of_nat (List.length kept)
           <? ServerConfig.max_restart_per_minute (cfg (self s)))%Z,
       mkSt (set_restart_times kept (self s))
            (mkWorld (S (steps (world s))) (event_q (world s))
                     (spawned (world s)))) /\
    Forall (fun t => (now - 60 <= t)%Q) kept /\
    (forall t : Q, In t kept <->
                   In t (_restart_times (self s)) /\ (now - 60 <= t)%Q) /\
    ((ServerConfig.max_restart_per_minute (cfg (self s)) <= 0)%Z ->
     fst (_allow_restart E s) = Ok false).
Proof.
  intros E s now kept.
  assert (Heq : _allow_restart E s =
      (Ok (Z.of_nat (List.length kept)
           <? ServerConfig.max_restart_per_minute (cfg (self s)))%Z,
       mkSt (set_restart_times kept (self s))
            (mkWorld (S (steps (world s))) (event_q (world s))
                     (spawned (world s))))).
  { destruct s as [[c p st h rt] [n q sp]]. reflexivity. }
  split; [exact Heq|]. split; [apply kept_within|]. split.
  - intros t. unfold kept, kept_restarts. rewrite filter_In.
    now rewrite Qle_bool_iff.
  - intros Hmax. rewrite Heq. simpl. f_equal. apply Z.ltb_ge. lia.
Qed.

Lemma allow_restart_window_witness :
  (ServerConfig.max_restart_per_minute
     (cfg (self (policy_st "always" crashed_later))) <= 3)%Z /\
  Forall (fun t => (clock env_fine 100 - 60 <= t)%Q)
         (kept_restarts (clock env_fine 100) [0%Q; 1%Q; 2%Q]).
Proof.
  split; [vm_compute; discriminate|].
  apply (allow_restart_window env_fine crashed_later).
Defined.

Lemma start_keeps_window (E : Env) (reason : string) (s : St) :
  _restart_times (self (snd (start reason E s))) = _restart_times (self s).
Proof.
  destruct (ProcessAdapter.is_running (proc (self s))) eqn:R.
  - now rewrite start_running_eq.
  - rewrite start_not_running_eq by exact R. cbv zeta.
    destruct (spawn_ok E _); reflexivity.
Qed.

(** The restart window is bounded: when it holds at most
    [max_restart_per_minute] times before a [tick_supervisor], it holds at
    most that many after it, whatever the tick finds and does; [start],
    [stop] and [tick_health] do not touch the window. *)
Theorem restart_window_bounded :
  forall (E : Env) (reason : string) (s : St),
    ((Z.of_nat (List.length (_restart_times (self s)))
      <= ServerConfig.max_restart_per_minute (cfg (self s)))%Z ->
     (Z.of_nat (List.length (_restart_times
                               (self (snd (tick_supervisor E s)))))
      <= ServerConfig.max_restart_per_minute (cfg (self s)))%Z) /\
    _restart_times (self (snd (start reason E s))) = _restart_times (self s) /\
    _restart_times (self (snd (stop reason E s))) = _restart_times (self s) /\
    _restart_times (self (snd (tick_health E s))) = _restart_times (self s).
Proof.
  intros E reason s. split; [|split; [|split]].
  - intros Hlen.
    destruct (ProcessAdapter.is_running (proc (self s))) eqn:R.
    { now rewrite tick_running_eq. }
    destruct (ProcessAdapter.exit_code (proc (self s))) as [c|] eqn:C.
    2:{ now rewrite tick_no_code_eq. }
    destruct (Z.eq_dec c 0) as [->|Hc].
    { now rewrite tick_exit_zero_eq. }
    rewrite (tick_crash_eq E s c R C Hc). cbv zeta.
    pose proof (kept_length (clock E (1 + steps (world s)))
                            (_restart_times (self s))) as Hk.
    destruct (String.eqb _ "never"); [exact Hlen|].
    destruct (Z.of_nat _ <? _)%Z eqn:Hlt.
    + rewrite start_keeps_window. apply Z.ltb_lt in Hlt.
      simpl in Hk, Hlt |- *. rewrite length_app. simpl. lia.
    + simpl in Hk |- *. lia.
  - apply start_keeps_window.
  - destruct (ProcessAdapter.is_running (proc (self s))) eqn:R.
    + now rewrite stop_running_eq.
    + now rewrite stop_not_running_eq.
  - pose proof (tick_health_eq E s) as H. cbv zeta in H. now rewrite H.
Qed.

Lemma restart_window_bounded_witness :
  (Z.of_nat (List.length (_restart_times (self crashed_later)))
   <= ServerConfig.max_restart_per_minute (cfg (self crashed_later)))%Z /\
  (Z.of_nat (List.length (_restart_times
                            (self (snd (tick_supervisor env_fine
                                          crashed_later)))))
   <= ServerConfig.max_restart_per_minute (cfg (self crashed_later)))%Z.
Proof.
  split; [vm_compute; discriminate|].
  apply (restart_window_bounded env_fine "api" crashed_later).
  vm_compute. discriminate.
Defined.

(** ** The manager *)




(** [do_action] acts on the server it names and on no other: whatever the
    action and its outcome, the map of servers keeps its keys and their
    order, every server stored under another id is exactly as before, and
    the configuration and the stop flag of the manager do not change. *)
Theorem do_action_touches_one_server :
  forall (E : Env) (server_id action reason : string) (s : PolarManager.St),
    let s' := snd (PolarManager.do_action server_id action reason E s) in
    dict_keys (PolarManager.servers (PolarManager.self s')) =
      dict_keys (PolarManager.servers (PolarManager.self s)) /\
    (forall other : string,
        other <> server_id ->
        dict_get (PolarManager.servers (PolarManager.self s')) other =
        dict_get (PolarManager.servers (PolarManager.self s)) other) /\
    PolarManager.cfg (PolarManager.self s') =
      PolarManager.cfg (PolarManager.self s) /\
    PolarManager._stop (PolarManager.self s') =
      PolarManager._stop (PolarManager.self s).
Proof.
  intros E sid action reason s s'. subst s'.
  assert (Hat : forall (thing : ManagedServer.t) (m : M St unit),
    dict_get (PolarManager.servers (PolarManager.self s)) sid = Some thing ->
    let s' := snd (PolarManager.at_server sid thing m E s) in
    dict_keys (PolarManager.servers (PolarManager.self s')) =
      dict_keys (PolarManager.servers (PolarManager.self s)) /\
    (forall other : string,
        other <> sid ->
        dict_get (PolarManager.servers (PolarManager.self s')) other =
        dict_get (PolarManager.servers (PolarManager.self s)) other) /\
    PolarManager.cfg (PolarManager.self s') =
      PolarManager.cfg (PolarManager.self s) /\
    PolarManager._stop (PolarManager.self s') =
      PolarManager._stop (PolarManager.self s)).
  { intros thing m Hget. unfold PolarManager.at_server.
    destruct (m E _) as [r st]. simpl.
    split; [|split; [|split; reflexivity]].
    - rewrite dict_keys_set.
      assert (Hex : existsb (String.eqb sid)
                      (dict_keys (PolarManager.servers (PolarManager.self s)))
                    = true).
      { apply existsb_exists. exists sid. split; [|apply String.eqb_refl].
        apply dict_get_in_keys. congruence. }
      now rewrite Hex.
    - intros other Hne. rewrite dict_get_set.
      destruct (String.eqb sid other) eqn:K; [|reflexivity].
      apply String.eqb_eq in K. congruence. }
  unfold PolarManager.do_action, bind, gets.
  destruct (dict_get (PolarManager.servers (PolarManager.self s)) sid)
    as [thing|] eqn:Hget; [|simpl; auto].
  destruct (String.eqb action "start"); [now apply Hat|].
  destruct (String.eqb action "stop"); [now apply Hat|].
  destruct (String.eqb action "restart"); [now apply Hat|].
  simpl. auto.
Qed.

Lemma fold_add_other (l : list ManagedServer.t) (d : dict ManagedServer.t)
  (k : string) :
  Forall (fun s => ServerConfig.id (cfg s) <> k) l ->
  dict_get (fold_left PolarManager.add_server l d) k = dict_get d k.
Proof.
  revert d. induction l as [|s l IH]; intros d H; simpl; [reflexivity|].
  inversion H; subst. rewrite IH by assumption.
  unfold PolarManager.add_server. rewrite dict_get_set.
  destruct (String.eqb _ k) eqn:K; [|reflexivity].
  apply String.eqb_eq in K. contradiction.
Qed.

(** When several retained entries of the configuration carry the same id,
    the manager serves the last of them: the map holds, under that id, the
    [ManagedServer] built from the last entry with the id, and the servers
    built from the earlier ones are dropped. *)
Theorem init_last_duplicate_wins :
  forall (c : AppConfig.t) (before after : list ServerConfig.t)
         (entry : ServerConfig.t),
    retained c = (before ++ entry :: after)%list ->
    Forall (fun e => ServerConfig.id e <> ServerConfig.id entry) after ->
    dict_get (PolarManager.servers (PolarManager.init c))
             (ServerConfig.id entry)
    = Some (ManagedServer.init entry).
Proof.
  intros c before after entry Hret Hafter.
  rewrite init_servers. unfold PolarManager.instantiated.
  fold (retained c). rewrite Hret, map_app. simpl.
  rewrite fold_left_app. simpl.
  rewrite fold_add_other.
  - unfold PolarManager.add_server at 1. rewrite dict_get_set. simpl.
    now rewrite String.eqb_refl.
  - apply Forall_map. simpl. exact Hafter.
Qed.

Lemma init_last_duplicate_wins_witness :
  retained app_duplicate = ([cfg_a; cfg_b] ++ cfg_a_again :: [])%list /\
  dict_get (PolarManager.servers (PolarManager.init app_duplicate)) "a"
  = Some (ManagedServer.init cfg_a_again).
Proof.
  split; [reflexivity|].
  apply (init_last_duplicate_wins app_duplicate [cfg_a; cfg_b] [] cfg_a_again).
  - reflexivity.
  - constructor.
Defined.

Lemma do_action_touches_one_server_witness :
  "b" <> "a" /\
  dict_get (PolarManager.servers (PolarManager.self
              (snd (PolarManager.do_action "a" "start" "api" env_fine
                      manager_two)))) "b" =
  dict_get (PolarManager.servers (PolarManager.self manager_two)) "b".
Proof.
  split; [discriminate|].
  apply (do_action_touches_one_server env_fine "a" "start" "api" manager_two).
  discriminate.
Defined.

(** ** Restarting *)


(** ** What every method of a server leaves alone *)

Lemma extends_refl (s : St) : extends s s.
Proof.
  unfold extends. repeat split; auto.
  - exists []. rewrite app_nil_r. auto.
  - exists []. now rewrite app_nil_r.
Qed.

Lemma extends_trans (s1 s2 s3 : St) :
  extends s1 s2 -> extends s2 s3 -> extends s1 s3.
Proof.
  intros [C1 [N1 [[e1 [Q1 F1]] [p1 P1]]]] [C2 [N2 [[e2 [Q2 F2]] [p2 P2]]]].
  unfold extends. split; [congruence|]. split; [lia|]. split.
  - exists (e1 ++ e2)%list. rewrite Q2, Q1, app_assoc. split; [reflexivity|].
    apply Forall_app. split; [exact F1|]. now rewrite C1 in F2.
  - exists (p1 ++ p2)%list. now rewrite P2, P1, app_assoc.
Qed.

Lemma orderly_bind {A B : Type} (m : M St A) (k : A -> M St B) :
  orderly m -> (forall a, orderly (k a)) -> orderly (bind m k).
Proof.
  intros Hm Hk E s. unfold bind. specialize (Hm E s).
  destruct (m E s) as [[a|e] s1]; simpl in *; [|exact Hm].
  exact (extends_trans _ _ _ Hm (Hk a E s1)).
Qed.

Lemma orderly_ret {A : Type} (a : A) : orderly (ret (S := St) a).
Proof. intros E s. apply extends_refl. Qed.

Lemma orderly_raise {A : Type} (e : exn) : orderly (raise (S := St) (A := A) e).
Proof. intros E s. apply extends_refl. Qed.

Lemma orderly_gets {A : Type} (f : St -> A) : orderly (gets f).
Proof. intros E s. apply extends_refl. Qed.

Lemma orderly_on_self (f : ManagedServer.t -> ManagedServer.t) :
  (forall x, cfg (f x) = cfg x) -> orderly (on_self f).
Proof.
  intros Hf E s. unfold on_self, modify, extends. simpl.
  split; [apply Hf|]. split; [lia|]. split.
  - exists []. rewrite app_nil_r. auto.
  - exists []. now rewrite app_nil_r.
Qed.

Lemma orderly_interact {A : Type} (f : Env -> nat -> A) :
  orderly (on_world (interact f)).
Proof.
  intros E s. unfold on_world, zoom, interact, extends. simpl.
  split; [reflexivity|]. split; [lia|]. split.
  - exists []. rewrite app_nil_r. auto.
  - exists []. now rewrite app_nil_r.
Qed.

Lemma orderly_emit (type_ : string) (data : dict value) :
  orderly (_emit type_ data).
Proof.
  intros E s. rewrite emit_eq. unfold extends. simpl.
  split; [reflexivity|]. split; [lia|]. split.
  - eexists. split; [reflexivity|]. repeat constructor.
  - exists []. now rewrite app_nil_r.
Qed.

Lemma orderly_adapter_start (cmd : list string) (wd : string)
  (env : dict string) :
  orderly (on_proc (ProcessAdapter.start cmd wd env)).
Proof.
  intros E [[c p st h rt] [n q sp]].
  unfold on_proc, zoom, ProcessAdapter.start,
    ProcessAdapter.create_subprocess_exec, ProcessAdapter.in_world, zoom,
    interact, record_spawn, bind, gets, modify, ask, raise, extends.
  simpl. destruct (ProcessAdapter.is_running p); simpl.
  - split; [reflexivity|]. split; [lia|]. split.
    + exists []. rewrite app_nil_r. auto.
    + exists []. now rewrite app_nil_r.
  - destruct (spawn_ok E n); simpl;
      (split; [reflexivity|]); (split; [lia|]); split;
      try (exists []; rewrite app_nil_r; now auto).
    eexists. reflexivity.
Qed.

Lemma orderly_adapter_stop : orderly (on_proc ProcessAdapter.stop).
Proof.
  intros E [[c p st h rt] [n q sp]].
  unfold on_proc, zoom, ProcessAdapter.stop, ProcessAdapter.in_world, zoom,
    interact, bind, gets, modify, ret, extends.
  simpl. destruct (ProcessAdapter.is_running p); simpl;
    (split; [reflexivity|]); (split; [lia|]); split;
    exists []; rewrite app_nil_r; auto.
Qed.

Ltac orderly_step :=
  lazymatch goal with
  | |- orderly (bind _ _) => apply orderly_bind; [|intros ?]
  | |- orderly (ret _) => apply orderly_ret
  | |- orderly (raise _) => apply orderly_raise
  | |- orderly (gets _) => apply orderly_gets
  | |- orderly (_emit _ _) => apply orderly_emit
  | |- orderly (on_world (interact _)) => apply orderly_interact
  | |- orderly (on_proc ProcessAdapter.stop) => apply orderly_adapter_stop
  | |- orderly (on_proc (ProcessAdapter.start _ _ _)) =>
      apply orderly_adapter_start
  | |- orderly (on_self _) => apply orderly_on_self; intros []; reflexivity
  | |- orderly (when ?b _) => unfold when; destruct b
  | |- orderly (if ?b then _ else _) => destruct b
  | |- orderly (match ?x with Some _ => _ | None => _ end) => destruct x
  end.

Lemma orderly_start (reason : string) : orderly (start reason).
Proof.
  unfold start, is_running, emit_status, spawn, config.
  repeat orderly_step.
Qed.

Lemma orderly_stop (reason : string) : orderly (stop reason).
Proof.
  unfold stop, is_running, emit_status, config.
  repeat orderly_step.
Qed.

Lemma orderly_allow_restart : orderly _allow_restart.
Proof.
  unfold _allow_restart, _now, config. repeat orderly_step.
Qed.

Lemma orderly_tick_supervisor : orderly tick_supervisor.
Proof.
  unfold tick_supervisor, is_running, config, _now.
  repeat first [ lazymatch goal with
                 | |- orderly _allow_restart => apply orderly_allow_restart
                 | |- orderly (start _) => apply orderly_start
                 end
               | orderly_step ].
Qed.

Lemma orderly_tick_health : orderly tick_health.
Proof.
  unfold tick_health, config, and_await, _check_port_open, _check_http.
  repeat orderly_step.
Qed.

Lemma orderly_on_log_line (line : string) : orderly (_on_log_line line).
Proof.
  unfold _on_log_line, config. repeat orderly_step.
Qed.

(** Every method of a server, whether it returns or raises, leaves the
    configuration of the server as it is, removes and reorders nothing in the
    event queue and in the list of spawned processes, and appends only
    events that carry the id of the server. *)
Theorem methods_orderly :
  forall (reason line : string),
    orderly (start reason) /\
    orderly (stop reason) /\
    orderly (restart reason) /\
    orderly tick_supervisor /\
    orderly tick_health /\
    orderly (_on_log_line line).
Proof.
  intros reason line.
  split; [apply orderly_start|]. split; [apply orderly_stop|].
  split.
  - unfold restart. apply orderly_bind; [apply orderly_stop|].
    intros _. apply orderly_start.
  - split; [apply orderly_tick_supervisor|].
    split; [apply orderly_tick_health | apply orderly_on_log_line].
Qed.

(** ** The HTTP handlers *)

(** With a shared secret configured, [/v1/plugin/event] enqueues the event
    exactly when the header carries that secret; every other request, the
    one without a header included, is answered 401 and changes nothing.
    With no secret configured (none, or the empty string) every request is
    accepted.  An accepted request appends one event, with the type, server
    id and data of the request, and leaves every server as it is. *)
Theorem plugin_event_secret :
  forall (E : Env) (shared_secret x_polar_secret : option string)
         (req : App.PluginEventReq) (s : PolarManager.St),
    let r := App.plugin_event shared_secret req x_polar_secret E s in
    let accepted :=
      negb (truthy_str shared_secret) ||
      match shared_secret, x_polar_secret with
      | Some secret, Some x => String.eqb x secret
      | _, _ => false
      end in
    (accepted = false ->
     r = (App.HTTPException 401 "bad secret", s)) /\
    (accepted = true ->
     fst r = App.Accepted /\
     PolarManager.self (snd r) = PolarManager.self s /\
     spawned (PolarManager.world (snd r)) = spawned (PolarManager.world s) /\
     exists ts : Q,
       event_q (PolarManager.world (snd r)) =
         (event_q (PolarManager.world s) ++
          [Event.mk (App.pe_type req) ts (App.pe_server_id req)
                    (App.pe_data req)])%list /\
       (PolarManager.servers (PolarManager.self s) = [] -> ts = 0%Q)).
Proof.
  intros E secret x req s r accepted. subst r accepted.
  unfold App.plugin_event, App.bad_secret.
  assert (Hacc : forall s0 : PolarManager.St,
    let w := PolarManager.world s0 in
    let r0 :=
      let '(ts, w1) :=
        match PolarManager.servers (PolarManager.self s0) with
        | _ :: _ => (clock E (steps w),
                     mkWorld (S (steps w)) (event_q w) (spawned w))
        | [] => (0%Q, w)
        end in
      (App.Accepted,
       PolarManager.mkSt (PolarManager.self s0)
         (mkWorld (steps w1)
            (event_q w1 ++
             [Event.mk (App.pe_type req) ts (App.pe_server_id req)
                       (App.pe_data req)])
            (spawned w1))) in
    fst r0 = App.Accepted /\
    PolarManager.self (snd r0) = PolarManager.self s0 /\
    spawned (PolarManager.world (snd r0)) = spawned (PolarManager.world s0) /\
    exists ts : Q,
      event_q (PolarManager.world (snd r0)) =
        (event_q (PolarManager.world s0) ++
         [Event.mk (App.pe_type req) ts (App.pe_server_id req)
                   (App.pe_data req)])%list /\
      (PolarManager.servers (PolarManager.self s0) = [] -> ts = 0%Q)).
  { intros s0. cbv zeta.
    destruct (PolarManager.servers (PolarManager.self s0)); simpl;
      repeat split; eexists; (split; [reflexivity|]);
      [reflexivity | discriminate]. }
  destruct secret as [[|c sec]|]; cbn -[String.eqb].
  - split; [discriminate | intros _; apply Hacc].
  - destruct x as [[|d xs]|]; cbn -[String.eqb].
    + split; [reflexivity | discriminate].
    + destruct (String.eqb (String d xs) (String c sec)); cbn -[String.eqb].
      * split; [discriminate | intros _; apply Hacc].
      * split; [reflexivity | discriminate].
    + split; [reflexivity | discriminate].
  - split; [discriminate | intros _; apply Hacc].
Qed.

Lemma plugin_event_secret_witness :
  App.plugin_event (Some "s3cret")
                   (App.mkPluginEventReq (Some "a") "player_join" [])
                   (Some "guess") env_fine manager_two
  = (App.HTTPException 401 "bad secret", manager_two).
Proof.
  apply (plugin_event_secret env_fine (Some "s3cret") (Some "guess")
           (App.mkPluginEventReq (Some "a") "player_join" []) manager_two).
  reflexivity.
Defined.

(** The handlers of [/v1/start], [/v1/stop] and [/v1/restart] answer 404
    exactly when the server id is unknown, and then change nothing; for a
    known id they answer with the body or let the error of a failed spawn
    through, never with an error about the action; and a request without a
    reason, or with the empty one, acts for the reason "api". *)
Theorem action_handlers_404 :
  forall (E : Env) (name : string) (req : App.ActionReq)
         (s : PolarManager.St),
    name = "start" \/ name = "stop" \/ name = "restart" ->
    let r := App.action name req E s in
    let known := dict_get (PolarManager.servers (PolarManager.self s))
                          (App.server_id req) in
    (known = None ->
     r = (App.HTTPException 404 "unknown server_id", s)) /\
    (known <> None ->
     fst r = App.Accepted \/ fst r = App.Uncaught OSError) /\
    (App.reason req = None \/ App.reason req = Some "" ->
     r = App.action name (App.mkActionReq (App.server_id req) (Some "api"))
                    E s).
Proof.
  intros E name req s Hname r known. subst r.
  unfold App.action.
  split; [|split].
  - intros Hk. unfold PolarManager.do_action, bind, gets.
    fold known. rewrite Hk. reflexivity.
  - intros Hk. fold known.
    unfold PolarManager.do_action, bind, gets. fold known.
    destruct known as [thing|]; [|congruence].
    destruct Hname as [ -> | [ -> | -> ] ]; simpl;
      match goal with
      | |- context [PolarManager.at_server ?sid ?t ?m E s] =>
          pose proof (at_server_result E sid t m s) as Hr;
          destruct (PolarManager.at_server sid t m E s) as [res s'];
          simpl in Hr
      end.
    + destruct (start_result E (App.reason_or_api (App.reason req))
                  (mkSt thing (PolarManager.world s))) as [H|H];
        rewrite H in Hr; subst res; simpl; auto.
    + pose proof (stop_ok E (App.reason_or_api (App.reason req))
                    (mkSt thing (PolarManager.world s))) as [H _].
      rewrite H in Hr; subst res; simpl; auto.
    + destruct (restart_result E (App.reason_or_api (App.reason req))
                  (mkSt thing (PolarManager.world s))) as [H|H];
        rewrite H in Hr; subst res; simpl; auto.
  - intros [H|H]; rewrite H; reflexivity.
Qed.

Lemma action_handlers_404_witness :
  dict_get (PolarManager.servers (PolarManager.self manager_two)) "zzz" = None /\
  App.action "start" (App.mkActionReq "zzz" None) env_fine manager_two =
    (App.HTTPException 404 "unknown server_id", manager_two).
Proof.
  split; [reflexivity|].
  exact (proj1 (action_handlers_404 env_fine "start"
                  (App.mkActionReq "zzz" None) manager_two
                  (or_introl eq_refl))
               eq_refl).
Defined.

(** ** The reader of the process output *)







